(** * MIS builder: the report computation engine of [mis_builder.py]

    A shallow embedding of [mis_builder/models/mis_builder.py]: the period
    resolver ([MisReportInstancePeriod._compute_dates]), the rendering of
    comparisons ([MisReportKpi.render_comparison]), the KPI evaluator
    ([MisReport._compute]) and the report assembler
    ([MisReportInstance._compute]).

    Conventions of the embedding:
    - a Python exception is a value of type [exc]; code that may raise
      returns a [result];
    - a [datetime.date] is its proleptic Gregorian ordinal
      ([date.toordinal()]), so that [date + timedelta(days=n)] is an addition
      guarded by the range check the Python library performs;
    - a Python [float] is modelled by an exact rational ([Q]); a Python
      [int] by [Z];
    - a dictionary is a [gmap]; an Odoo recordset is the list of its records,
      without duplicates, in recordset order. *)

From Stdlib Require Import ZArith QArith Qround Qabs Ascii String List Lia.
From Stdlib Require Import DecimalString.
From stdpp Require Import base option list gmap strings fin_maps.

Local Open Scope string_scope.
Local Open Scope list_scope.
Local Open Scope Z_scope.

(** ** Exceptions and results *)

(** The exception classes the handlers of the source tell apart
    ([except ZeroDivisionError], [except (NameError, ValueError)], bare
    [except]), and those the modelled code raises itself. *)
Inductive exc_class : Set :=
| ZeroDivisionError
| NameError
| ValueError
| TypeError
| OverflowError
| IndexError
| AttributeError
| SyntaxError
| RuntimeError
| OtherError.

Record exc : Set := mkExc {
  exc_cls : exc_class;
  exc_msg : string   (* what [traceback.format_exc()] prints for it *)
}.

Inductive result (A : Type) : Type :=
| Ok (a : A)
| Raise (e : exc).
Arguments Ok {A} a.
Arguments Raise {A} e.

#[global] Instance result_ret : MRet result := fun A a => Ok a.
#[global] Instance result_bind : MBind result := fun A B f r =>
  match r with
  | Ok a => f a
  | Raise e => Raise e
  end.

Definition is_ok {A} (r : result A) : bool :=
  match r with Ok _ => true | Raise _ => false end.

(** ** Dates *)

Module Date.

(** [datetime.date]: ordinals of 0001-01-01 .. 9999-12-31. *)
Definition date := Z.

Definition MINORD : Z := 1.
Definition MAXORD : Z := 3652059.
Definition MAX_DELTA_DAYS : Z := 999999999.

Definition in_range (n : Z) : bool := (MINORD <=? n) && (n <=? MAXORD).

Definition _is_leap (y : Z) : bool :=
  (y mod 4 =? 0) && (negb (y mod 100 =? 0) || (y mod 400 =? 0)).

Definition _days_before_year (y : Z) : Z :=
  let y' := y - 1 in y' * 365 + y' / 4 - y' / 100 + y' / 400.

Definition _days_in_month (y m : Z) : Z :=
  if m =? 2 then (if _is_leap y then 29 else 28)
  else if (m =? 4) || (m =? 6) || (m =? 9) || (m =? 11) then 30
  else 31.

Fixpoint _days_before_month_aux (y : Z) (k : nat) : Z :=
  match k with
  | O => 0
  | S k' => _days_before_month_aux y k' + _days_in_month y (Z.of_nat k)
  end.

Definition _days_before_month (y m : Z) : Z :=
  _days_before_month_aux y (Z.to_nat (m - 1)).

(** [date(y, m, d).toordinal()] *)
Definition _ymd2ord (y m d : Z) : date :=
  _days_before_year y + _days_before_month y m + d.

(** [date.weekday()]: Monday is 0, Sunday is 6. *)
Definition weekday (d : date) : Z := (d + 6) mod 7.

Definition overflow (msg : string) : exc := mkExc OverflowError msg.

(** [datetime.timedelta(days=n)] *)
Definition timedelta (days : Z) : result Z :=
  if (- MAX_DELTA_DAYS <=? days) && (days <=? MAX_DELTA_DAYS)
  then Ok days
  else Raise (overflow "days out of range for timedelta").

(** [date + timedelta] *)
Definition add (d : date) (delta : Z) : result date :=
  let o := d + delta in
  if in_range o then Ok o else Raise (overflow "date value out of range").

(** [date - timedelta] *)
Definition sub (d : date) (delta : Z) : result date := add d (- delta).

End Date.

(** ** Ledger periods ([account.period]) *)

Record account_period : Set := mkAccountPeriod {
  ap_id : Z;
  ap_name : string;
  ap_date_start : Date.date;
  ap_date_stop : Date.date;
  ap_special : bool;
  ap_company_id : Z
}.

(** Python list access. *)
Module Py.

(** [l[i]], negative indices counting from the end. *)
Definition index {A} (l : list A) (i : Z) : result A :=
  let n := Z.of_nat (length l) in
  let j := if i <? 0 then i + n else i in
  if (0 <=? j) && (j <? n) then
    match nth_error l (Z.to_nat j) with
    | Some x => Ok x
    | None => Raise (mkExc IndexError "list index out of range")
    end
  else Raise (mkExc IndexError "list index out of range").

Definition clamp (n i : Z) : Z :=
  let j := if i <? 0 then i + n else i in
  if j <? 0 then 0 else if n <? j then n else j.

(** [l[lo:hi]] *)
Definition slice {A} (l : list A) (lo hi : Z) : list A :=
  let n := Z.of_nat (length l) in
  let a := clamp n lo in
  let b := clamp n hi in
  firstn (Z.to_nat (b - a)) (skipn (Z.to_nat a) l).

(** [l.index(x)] on a list of integers *)
Fixpoint list_index (l : list Z) (x : Z) : option Z :=
  match l with
  | [] => None
  | y :: l' => if y =? x then Some 0
               else match list_index l' x with
                    | Some i => Some (i + 1)
                    | None => None
                    end
  end.

End Py.

(** ** Period instances ([mis.report.instance.period]) *)

Inductive period_type : Set := PDay | PWeek | PFiscalPeriod.

Record instance_period : Set := mkInstancePeriod {
  ip_id : Z;
  ip_name : string;
  ip_type : period_type;
  ip_offset : Z;
  ip_duration : Z;
  ip_normalize_factor : Z;
  ip_comparison_column_ids : list Z;
  ip_template_period_id : option Z
}.

(** The computed fields of a period instance; [None] is the [False] the
    source stores in an empty field. *)
Record period_dates : Set := mkPeriodDates {
  date_from : option Date.date;
  date_to : option Date.date;
  period_from : option account_period;
  period_to : option account_period;
  valid : bool
}.

Module MisReportInstancePeriod.

Definition no_dates : period_dates :=
  mkPeriodDates None None None None false.

(** [account.period].search: the rows of the table satisfying the domain,
    ordered by [date_start] (rows with the same start keep the order of
    the table). *)
Fixpoint insert_by_start (p : account_period) (l : list account_period)
  : list account_period :=
  match l with
  | [] => [p]
  | q :: l' => if ap_date_start q <=? ap_date_start p
               then q :: insert_by_start p l'
               else p :: l
  end.

Definition order_by_start (l : list account_period) : list account_period :=
  fold_left (fun acc p => insert_by_start p acc) l [].

Definition search_current (table : list account_period) (company : Z)
    (d : Date.date) : list account_period :=
  order_by_start
    (List.filter (fun p => negb (ap_special p)
                     && (ap_date_start p <=? d)
                     && (d <=? ap_date_stop p)
                     && (ap_company_id p =? company)) table).

Definition search_all (table : list account_period) (company : Z)
  : list account_period :=
  order_by_start
    (List.filter (fun p => negb (ap_special p)
                     && (ap_company_id p =? company)) table).

(** The shifted index [p] of the source, when the pivot date lies in a
    ledger period. *)
Definition shifted_index (table : list account_period) (company : Z)
    (pivot : Date.date) (offset : Z) : option (result Z) :=
  match search_current table company pivot with
  | [] => None
  | cur :: _ =>
      Some match Py.list_index (map ap_id (search_all table company))
                               (ap_id cur) with
           | Some i => Ok (i + offset)
           | None => Raise (mkExc ValueError "x is not in list")
           end
  end.

Definition _compute_dates (table : list account_period) (company : Z)
    (pivot : Date.date) (self : instance_period) : result period_dates :=
  let d := pivot in
  match ip_type self with
  | PDay =>
      (td ← Date.timedelta (ip_offset self);
       date_from ← Date.add d td;
       td' ← Date.timedelta (ip_duration self - 1);
       date_to ← Date.add date_from td';
       Ok (mkPeriodDates (Some date_from) (Some date_to) None None true))
  | PWeek =>
      (td0 ← Date.timedelta (Date.weekday d);
       date_from ← Date.sub d td0;
       td ← Date.timedelta (ip_offset self * 7);
       date_from ← Date.add date_from td;
       td' ← Date.timedelta (7 * ip_duration self - 1);
       date_to ← Date.add date_from td';
       Ok (mkPeriodDates (Some date_from) (Some date_to) None None true))
  | PFiscalPeriod =>
      match shifted_index table company d (ip_offset self) with
      | None => Ok no_dates
      | Some rp =>
          (p ← rp;
           let all_periods := search_all table company in
           if (0 <=? p)
              && (p + ip_duration self <=? Z.of_nat (length all_periods))
           then
             let periods := Py.slice all_periods p (p + ip_duration self) in
             first ← Py.index periods 0;
             last ← Py.index periods (-1);
             Ok (mkPeriodDates (Some (ap_date_start first))
                               (Some (ap_date_stop last))
                               (Some first) (Some last) true)
           else Ok no_dates)
      end
  end.

End MisReportInstancePeriod.

(** ** Values *)

(** Python objects that are not numbers or strings: the model registry,
    the builtin functions put in the evaluation scope, and whatever a query
    returns. *)
Inductive pyobj : Set :=
| Registry
| Builtin (name : string)
| Opaque (n : nat).

Inductive value : Set :=
| VNone                (* [None] *)
| VAccountingNone      (* the no-data sentinel [AccountingNone] *)
| VInt (z : Z)
| VFloat (q : Q)
| VStr (s : string)
| VObj (o : pyobj).

Definition is_None (v : value) : bool :=
  match v with VNone => true | _ => false end.

Definition is_AccountingNone (v : value) : bool :=
  match v with VAccountingNone => true | _ => false end.

Module PyNum.

Definition type_error (msg : string) : exc := mkExc TypeError msg.
Definition zero_division : exc :=
  mkExc ZeroDivisionError "ZeroDivisionError: division by zero".

Definition Qnonzero (q : Q) : bool := negb (Qeq_bool q 0).

(** Modelled from the spec: the truth value of the sentinel, whose module
    [accounting_none.py] is missing from the sources.  The sentinel is the
    "no data" value of the spec, false like [None]; the truth values of
    the other objects are those of Python. *)
Definition truthy (v : value) : bool :=
  match v with
  | VNone => false
  | VAccountingNone => false
  | VInt z => negb (z =? 0)
  | VFloat q => Qnonzero q
  | VStr s => negb (String.eqb s "")
  | VObj _ => true
  end.

(** [float(n)] of an integer *)
Definition float_of_int (z : Z) : Q := inject_Z z.

(** Modelled from the spec: the arithmetic of the sentinel, whose module
    [accounting_none.py] is missing from the sources.  "Absent operands
    propagate as absent, not as zero" ("absence + x = absence"): an
    operation with the sentinel gives the sentinel.  Between numbers the
    operations are those of Python 2. *)
Definition sub (a b : value) : result value :=
  match a, b with
  | VAccountingNone, _ | _, VAccountingNone => Ok VAccountingNone
  | VInt x, VInt y => Ok (VInt (x - y))
  | VInt x, VFloat y => Ok (VFloat (float_of_int x - y))
  | VFloat x, VInt y => Ok (VFloat (x - float_of_int y))
  | VFloat x, VFloat y => Ok (VFloat (x - y))
  | _, _ => Raise (type_error "unsupported operand type(s) for -")
  end.

(** Modelled from the spec: as [sub] for the sentinel, which is missing
    from the sources. *)
Definition add (a b : value) : result value :=
  match a, b with
  | VAccountingNone, _ | _, VAccountingNone => Ok VAccountingNone
  | VInt x, VInt y => Ok (VInt (x + y))
  | VInt x, VFloat y => Ok (VFloat (float_of_int x + y))
  | VFloat x, VInt y => Ok (VFloat (x + float_of_int y))
  | VFloat x, VFloat y => Ok (VFloat (x + y))
  | _, _ => Raise (type_error "unsupported operand type(s) for +")
  end.

(** Modelled from the spec: as [sub] for the sentinel, which is missing
    from the sources. *)
Definition mul (a b : value) : result value :=
  match a, b with
  | VAccountingNone, _ | _, VAccountingNone => Ok VAccountingNone
  | VInt x, VInt y => Ok (VInt (x * y))
  | VInt x, VFloat y => Ok (VFloat (float_of_int x * y))
  | VFloat x, VInt y => Ok (VFloat (x * float_of_int y))
  | VFloat x, VFloat y => Ok (VFloat (x * y))
  | _, _ => Raise (type_error "unsupported operand type(s) for *")
  end.

Definition fdiv (x y : Q) : result value :=
  if Qnonzero y then Ok (VFloat (x / y)) else Raise zero_division.

(** Modelled from the spec: as [sub] for the sentinel, which is missing
    from the sources.  [a / b] between two integers is the floor division
    of Python 2. *)
Definition div (a b : value) : result value :=
  match a, b with
  | VAccountingNone, _ | _, VAccountingNone => Ok VAccountingNone
  | VInt x, VInt y =>
      if y =? 0 then Raise zero_division else Ok (VInt (x / y))
  | VInt x, VFloat y => fdiv (float_of_int x) y
  | VFloat x, VInt y => fdiv x (float_of_int y)
  | VFloat x, VFloat y => fdiv x y
  | _, _ => Raise (type_error "unsupported operand type(s) for /")
  end.

(** Modelled from the spec: as [sub] for the sentinel, which is missing
    from the sources. *)
Definition abs (a : value) : result value :=
  match a with
  | VAccountingNone => Ok VAccountingNone
  | VInt x => Ok (VInt (Z.abs x))
  | VFloat x => Ok (VFloat (Qabs x))
  | _ => Raise (type_error "bad operand type for abs()")
  end.

(** Rounding to the nearest integer, ties away from zero. *)
Definition round_half_away (q : Q) : Z :=
  if Qle_bool 0 q then Qfloor (q + (1 # 2))
  else - Qfloor (- q + (1 # 2)).

Definition pow10 (n : Z) : Q := inject_Z (10 ^ n).

(** [round(q, dp)] of Python 2: the closest multiple of [10 ** -dp], ties
    away from zero. *)
Definition round_dp (q : Q) (dp : Z) : Q :=
  if 0 <=? dp
  then inject_Z (round_half_away (q * pow10 dp)) / pow10 dp
  else inject_Z (round_half_away (q / pow10 (- dp))) * pow10 (- dp).

(** [round(v, dp)]: always a float in Python 2. *)
Definition round (v : value) (dp : Z) : result Q :=
  match v with
  | VInt x => Ok (round_dp (float_of_int x) dp)
  | VFloat x => Ok (round_dp x dp)
  | _ => Raise (type_error "a float is required")
  end.

End PyNum.

(** ** Report templates ([mis.report], [mis.report.kpi], [mis.report.query]) *)

Inductive kpi_type : Set := KNum | KPct | KStr.

(** The keys of the [divider] selection; [DivEmpty] is the empty field. *)
Inductive divider : Set := D1e_6 | D1e_3 | D1 | D1e3 | D1e6 | DivEmpty.

Inductive compare_method : Set := CmpDiff | CmpPct | CmpNone.

Record kpi : Set := mkKpi {
  k_id : Z;
  k_name : string;
  k_description : string;
  k_column_break : bool;
  k_column_title : bool;
  k_invisible : bool;
  k_expression : string;
  k_default_css_style : option string;
  k_css_style : option string;
  k_type : kpi_type;
  k_divider : divider;
  k_dp : Z;
  k_prefix : option string;
  k_suffix : option string;
  k_compare_method : compare_method;
  k_sequence : Z
}.

Record query : Set := mkQuery {
  q_id : Z;
  q_name : string
}.

Record report : Set := mkReport {
  r_id : Z;
  r_name : string;
  r_code : string;
  r_query_ids : list query;
  r_kpi_ids : list kpi;
  r_matrix : bool;
  r_manual_position : bool
}.

Inductive target_move : Set := Posted | AllMoves.

(** ** Report instances ([mis.report.instance]) *)

Record instance : Set := mkInstance {
  i_id : Z;
  i_name : string;
  i_pivot_date : Date.date;
  i_report_id : report;
  i_period_ids : list instance_period;
  i_target_move : target_move;
  i_company_id : Z;
  i_root_account : Z
}.

(** ** Text of formulas *)

(** A string given by the codes of its bytes. *)
Definition bytes (l : list nat) : string :=
  fold_right (fun n s => String (ascii_of_nat n) s) EmptyString l.

Module Re.

Definition is_alpha (c : ascii) : bool :=
  let n := N_of_ascii c in
  ((65 <=? n) && (n <=? 90) || (97 <=? n) && (n <=? 122))%N.

Definition is_digit (c : ascii) : bool :=
  let n := N_of_ascii c in ((48 <=? n) && (n <=? 57))%N.

(** [\w] on a byte string: letters, digits and the underscore *)
Definition is_word (c : ascii) : bool :=
  is_alpha c || is_digit c || Ascii.eqb c "_"%char.

Definition is_dot (c : ascii) : bool := Ascii.eqb c "."%char.

(** ['.' in s] *)
Fixpoint contains_dot (s : string) : bool :=
  match s with
  | EmptyString => false
  | String c s' => is_dot c || contains_dot s'
  end.

(** [s.split('.')] *)
Fixpoint split_dot (s : string) : list string :=
  match s with
  | EmptyString => [EmptyString]
  | String c s' =>
      let r := split_dot s' in
      if is_dot c then EmptyString :: r
      else match r with
           | h :: t => String c h :: t
           | [] => [String c EmptyString]
           end
  end.

(** [a, b = s.split('.')] *)
Definition unpack2 (l : list string) : result (string * string) :=
  match l with
  | [a; b] => Ok (a, b)
  | [] | [_] => Raise (mkExc ValueError "need more than 1 value to unpack")
  | _ => Raise (mkExc ValueError "too many values to unpack")
  end.

(** The longest prefix of [s] made of characters satisfying [p], and the
    rest. *)
Fixpoint span (p : ascii -> bool) (s : string) : string * string :=
  match s with
  | EmptyString => (EmptyString, EmptyString)
  | String c s' =>
      if p c then let (a, b) := span p s' in (String c a, b)
      else (EmptyString, s)
  end.

(** [re.findall(r'[\w,\.]+', s)]: the maximal runs of word characters,
    commas and dots; [cur] is the run being read. *)
Definition in_sub_expression (c : ascii) : bool :=
  is_word c || Ascii.eqb c ","%char || is_dot c.

Definition flush (cur : string) (l : list string) : list string :=
  match cur with EmptyString => l | _ => cur :: l end.

Fixpoint findall_runs (cur : string) (s : string) : list string :=
  match s with
  | EmptyString => flush cur []
  | String c s' =>
      if in_sub_expression c
      then findall_runs (cur +:+ String c EmptyString) s'
      else flush cur (findall_runs EmptyString s')
  end.

(** [[a-zA-Z]\w+] at the start of [s]: the identifier read (at least two
    characters) and the rest. *)
Definition ident2 (s : string) : option (string * string) :=
  match s with
  | String a rest =>
      if is_alpha a then
        match span is_word rest with
        | (EmptyString, _) => None
        | (w, rest') => Some (String a w, rest')
        end
      else None
  | EmptyString => None
  end.

(** A match of [([a-zA-Z]\w+)\.([a-zA-Z]\w+)] at the start of [s]: the
    two groups. *)
Definition match_dotted (s : string) : option (string * string) :=
  match ident2 s with
  | Some (g1, String c rest) =>
      if is_dot c then
        match ident2 rest with
        | Some (g2, _) => Some (g1, g2)
        | None => None
        end
      else None
  | _ => None
  end.

(** [re.sub(r'([a-zA-Z]\w+)\.([a-zA-Z]\w+)', r'\1_\2', s)]: the leftmost
    matches, not overlapping; [skip] counts the characters of the last
    match still to pass over. *)
Fixpoint sub_dotted_from (skip : nat) (s : string) : string :=
  match s with
  | EmptyString => EmptyString
  | String c s' =>
      match skip with
      | S k => sub_dotted_from k s'
      | O =>
          match match_dotted s with
          | Some (g1, g2) =>
              g1 +:+ "_" +:+ g2
              +:+ sub_dotted_from (String.length g1 + String.length g2) s'
          | None => String c (sub_dotted_from O s')
          end
      end
  end.

Definition sub_dotted (s : string) : string := sub_dotted_from O s.

End Re.

(** [_sub_expressions(expression)] *)
Definition _sub_expressions (expression : string) : list string :=
  Re.findall_runs EmptyString expression.

(** ** Results *)

(** The dictionary [_compute] stores under each KPI name.  Its
    ['inherit_subreport_vals'] entry is the memo dictionary of the
    evaluation itself (one shared object); it is kept in the state of the
    evaluator ([MisReport.st]) and not repeated here. *)
Record kpi_result : Set := mkKpiResult {
  val : value;
  val_r : string;
  val_c : string;
  style : value;
  res_prefix : option string;
  res_suffix : option string;
  res_dp : Z;
  res_kpi_id : Z;
  is_percentage : bool;
  res_period_id : option Z;
  expr : string;
  drilldown : bool;
  sub_report_ids : list Z      (* [[]] is the [False] of the source *)
}.

(** A cell of a content row: the result of a KPI for a period, the
    rendering of a comparison ([{'val_r': ...}]), or an empty dictionary. *)
Inductive cell : Set :=
| CellKpi (r : kpi_result)
| CellCmp (rendered : string)
| CellEmpty.                   (* [{}] *)

(** [col.get('period_id')] and [col.get('val')] *)
Definition cell_period_id (c : cell) : option Z :=
  match c with CellKpi r => res_period_id r | _ => None end.

Definition cell_val (c : cell) : value :=
  match c with CellKpi r => val r | _ => VNone end.

Record row : Set := mkRow {
  row_kpi_name : string;
  row_kpi_unique_name : option string;
  row_cols : list cell;
  row_default_style : option string;
  row_column : nat;
  row_invisible : bool
}.

Record header_col : Set := mkHeaderCol {
  hc_name : string;
  hc_date : string
}.

Record header : Set := mkHeader {
  h_kpi_name : string;
  h_cols : list header_col
}.

Record block : Set := mkBlock {
  b_header : list header;
  b_content : list row
}.

(** ** External collaborators

    What the engine consumes from Odoo and from the modules of the
    repository that are not modelled here: the sandboxed evaluator
    ([openerp.tools.safe_eval]), the accounting expression processor
    ([aep.py]), the tables of the database, the formatting of numbers and
    dates. *)
Record env : Type := mkEnv {
  (** [safe_eval(expr, localdict)] *)
  safe_eval : string -> gmap string value -> result value;
  (** [aep.replace_expr(expr)] after [aep.do_queries] for a report and the
      dates of a period *)
  aep_replace_expr : report -> period_dates -> target_move -> string -> string;
  (** [AEP.has_account_var(expr)] *)
  aep_has_account_var : string -> bool;
  (** the body of the loop of [_fetch_queries]: what a query returns for a
      date range *)
  run_query : query -> option Date.date -> option Date.date -> value;
  (** [res.lang.format('%<sign>.<dp>f', value, grouping=True)]; the flag is
      true for [sign='+'] *)
  lang_format : Z -> bool -> Z -> Q -> result string;
  (** [unicode(value)] *)
  unicode_of : value -> string;
  (** the id of the language of the user *)
  user_lang_id : Z;
  (** [MisReportInstance._format_date] *)
  format_date : Z -> option Date.date -> string;
  (** the table [mis.report] *)
  all_reports : list report;
  (** the table [account.period] *)
  account_periods : list account_period;
  (** the reshaping of the grid of a matrix or manually positioned report
      (the end of [MisReportInstance._compute]) *)
  reshape : report -> list block -> result (list block)
}.

(** ** KPI rendering ([mis.report.kpi]) *)

Module MisReportKpi.

(** U+202F, U+00A0, U+2011 and U+00B5 in UTF-8 *)
Definition NARROW_NO_BREAK_SPACE : string := bytes [226; 128; 175]%nat.
Definition NO_BREAK_SPACE : string := bytes [194; 160]%nat.
Definition NON_BREAKING_HYPHEN : string := bytes [226; 128; 145]%nat.
Definition MICRO : string := bytes [194; 181]%nat.

Definition divider_selection : list (string * string) :=
  [("1e-6", MICRO); ("1e-3", "m"); ("1", "1"); ("1e3", "k"); ("1e6", "M")].

Definition divider_key (d : divider) : string :=
  match d with
  | D1e_6 => "1e-6" | D1e_3 => "1e-3" | D1 => "1"
  | D1e3 => "1e3" | D1e6 => "1e6" | DivEmpty => ""
  end.

(** The [divider] argument of [_render_num]: the field of the KPI or the
    float [0.01]. *)
Inductive divider_arg : Set :=
| DivSel (d : divider)
| DivFloat (q : Q).

Fixpoint _get_selection_label (selection : list (string * string))
    (value : string) : string :=
  match selection with
  | [] => ""
  | (v, l) :: rest =>
      if String.eqb v value then l else _get_selection_label rest value
  end.

(** [float(divider or 1)] *)
Definition float_divider (d : divider_arg) : Q :=
  match d with
  | DivSel D1e_6 => 1 # 1000000
  | DivSel D1e_3 => 1 # 1000
  | DivSel D1 => 1
  | DivSel D1e3 => 1000
  | DivSel D1e6 => 1000000
  | DivSel DivEmpty => 1
  | DivFloat q => if PyNum.Qnonzero q then q else 1
  end.

(** [s.replace('-', by_)] *)
Fixpoint replace_hyphen (by_ : string) (s : string) : string :=
  match s with
  | EmptyString => EmptyString
  | String c s' =>
      if Ascii.eqb c "-"%char then by_ +:+ replace_hyphen by_ s'
      else String c (replace_hyphen by_ s')
  end.

Definition or_empty (o : option string) : string :=
  match o with Some s => s | None => "" end.

Section WithEnv.
Context (E : env).

Definition _render_num (lang_id : Z) (value : value)
    (divider : divider_arg) (dp : Z) (prefix suffix : option string)
    (plus : bool) : result string :=
  let divider_label :=
    match divider with
    | DivSel d => _get_selection_label divider_selection (divider_key d)
    | DivFloat _ => ""
    end in
  let divider_label :=
    if String.eqb divider_label "1" then "" else divider_label in
  q ← PyNum.div value (VFloat (float_divider divider));
  (* [round(...) or 0]: a rational has no negative zero *)
  value ← PyNum.round q dp;
  value ← lang_format E lang_id plus dp value;
  let value := or_empty prefix +:+ NARROW_NO_BREAK_SPACE +:+ value
               +:+ NO_BREAK_SPACE +:+ divider_label +:+ or_empty suffix in
  Ok (replace_hyphen NON_BREAKING_HYPHEN value).

(** render a KPI value as a unicode string, ready for display *)
Definition render (self : kpi) (lang_id : Z) (value : value)
  : result string :=
  if is_None value || is_AccountingNone value then Ok ""
  else match k_type self with
       | KNum => _render_num lang_id value (DivSel (k_divider self))
                   (k_dp self) (k_prefix self) (k_suffix self) false
       | KPct => _render_num lang_id value (DivFloat (1 # 100))
                   (k_dp self) (Some "") (Some "%") false
       | KStr => Ok (unicode_of E value)
       end.

(** [delta and round(x, dp) != 0]; [x] is evaluated only when [delta]
    is true. *)
Definition and_round_nonzero (delta : value) (x : result value) (dp : Z)
  : result bool :=
  if PyNum.truthy delta
  then v ← x; r ← PyNum.round v dp; Ok (PyNum.Qnonzero r)
  else Ok false.

(** [if v and average: v = v / float(average)] *)
Definition normalize (v : value) (average : Z) : result value :=
  if PyNum.truthy v && negb (average =? 0)
  then PyNum.div v (VFloat (PyNum.float_of_int average))
  else Ok v.

(** render the comparison of two KPI values, ready for display *)
Definition render_comparison (self : kpi) (lang_id : Z)
    (value base_value : value) (average_value average_base_value : Z)
  : result string :=
  let value := if is_None value then VAccountingNone else value in
  let base_value :=
    if is_None base_value then VAccountingNone else base_value in
  match k_type self with
  | KPct =>
      delta ← PyNum.sub value base_value;
      b ← and_round_nonzero delta (Ok delta) (k_dp self);
      if b : bool
      then _render_num lang_id delta (DivFloat (1 # 100)) (k_dp self)
             (Some "") (Some "pp") true
      else Ok ""
  | KNum =>
      value ← normalize value average_value;
      base_value ← normalize base_value average_base_value;
      match k_compare_method self with
      | CmpDiff =>
          delta ← PyNum.sub value base_value;
          b ← and_round_nonzero delta (Ok delta) (k_dp self);
          if b : bool
          then _render_num lang_id delta (DivSel (k_divider self))
                 (k_dp self) (k_prefix self) (k_suffix self) true
          else Ok ""
      | CmpPct =>
          b ← and_round_nonzero base_value (Ok base_value) (k_dp self);
          if b : bool then
            d ← PyNum.sub value base_value;
            a ← PyNum.abs base_value;
            delta ← PyNum.div d a;
            b' ← and_round_nonzero delta (PyNum.mul delta (VInt 100))
                   (k_dp self);
            if b' : bool
            then _render_num lang_id delta (DivFloat (1 # 100))
                   (k_dp self) (Some "") (Some "%") true
            else Ok ""
          else Ok ""
      | CmpNone => Ok ""
      end
  | KStr => Ok ""
  end.

End WithEnv.

End MisReportKpi.

(** ** The KPI evaluator ([mis.report]) *)

Module MisReport.

(** What a computation did, for the record: the evaluations of a report
    for a period ([MisReport._compute]) and the evaluations of a
    sub-report it asked for ([report_instance_id._compute]). *)
Inductive event : Set :=
| EvCompute (report_id : Z) (period_id : option Z)
| EvSubReport (report_id : Z).

(** The variables of [_compute] that its loops update.  The last three
    fields are not variables of the source: they record the calls of
    [safe_eval] on KPI expressions, the codes of the sub-reports
    evaluated by this call, and the events of this call and of the calls
    nested in it. *)
Record st : Type := mkSt {
  localdict : gmap string value;
  recompute_queue : list kpi;
  inherit_subreport_vals : gmap string (gmap (option string) cell);
  res : gmap string kpi_result;
  kpi_eval_expression : string;
  inherit_active_subreport_ids : list report;
  eval_log : list (string * gmap string value);
  sub_calls : list string;
  trace : list event
}.

Definition set_localdict (f : gmap string value -> gmap string value)
    (s : st) : st :=
  mkSt (f (localdict s)) (recompute_queue s) (inherit_subreport_vals s)
       (res s) (kpi_eval_expression s) (inherit_active_subreport_ids s)
       (eval_log s) (sub_calls s) (trace s).

Definition set_recompute_queue (q : list kpi) (s : st) : st :=
  mkSt (localdict s) q (inherit_subreport_vals s)
       (res s) (kpi_eval_expression s) (inherit_active_subreport_ids s)
       (eval_log s) (sub_calls s) (trace s).

Definition set_inherit_subreport_vals
    (f : gmap string (gmap (option string) cell)
         -> gmap string (gmap (option string) cell)) (s : st) : st :=
  mkSt (localdict s) (recompute_queue s) (f (inherit_subreport_vals s))
       (res s) (kpi_eval_expression s) (inherit_active_subreport_ids s)
       (eval_log s) (sub_calls s) (trace s).

Definition set_res (f : gmap string kpi_result -> gmap string kpi_result)
    (s : st) : st :=
  mkSt (localdict s) (recompute_queue s) (inherit_subreport_vals s)
       (f (res s)) (kpi_eval_expression s) (inherit_active_subreport_ids s)
       (eval_log s) (sub_calls s) (trace s).

Definition set_kpi_eval_expression (e : string) (s : st) : st :=
  mkSt (localdict s) (recompute_queue s) (inherit_subreport_vals s)
       (res s) e (inherit_active_subreport_ids s)
       (eval_log s) (sub_calls s) (trace s).

Definition set_inherit_active_subreport_ids (l : list report) (s : st)
  : st :=
  mkSt (localdict s) (recompute_queue s) (inherit_subreport_vals s)
       (res s) (kpi_eval_expression s) l
       (eval_log s) (sub_calls s) (trace s).

Definition log_eval (e : string) (s : st) : st :=
  mkSt (localdict s) (recompute_queue s) (inherit_subreport_vals s)
       (res s) (kpi_eval_expression s) (inherit_active_subreport_ids s)
       (eval_log s ++ [(e, localdict s)]) (sub_calls s) (trace s).

Definition log_sub_call (code : string) (evs : list event) (s : st) : st :=
  mkSt (localdict s) (recompute_queue s) (inherit_subreport_vals s)
       (res s) (kpi_eval_expression s) (inherit_active_subreport_ids s)
       (eval_log s) (sub_calls s ++ [code]) (trace s ++ evs).

(** Statements that update the state and may raise: the state reached
    when an exception is raised is kept, as in Python. *)
Definition M (A : Type) : Type := st -> result A * st.

#[global] Instance M_ret : MRet M := fun A a s => (Ok a, s).
#[global] Instance M_bind : MBind M := fun A B f m s =>
  match m s with
  | (Ok a, s') => f a s'
  | (Raise e, s') => (Raise e, s')
  end.

Definition lift {A} (r : result A) : M A := fun s => (r, s).
Definition modify (f : st -> st) : M unit := fun s => (Ok tt, f s).
Definition gets {A} (f : st -> A) : M A := fun s => (Ok (f s), s).

Fixpoint for_each {A} (l : list A) (body : A -> M unit) : M unit :=
  match l with
  | [] => mret tt
  | x :: l' => body x ;; for_each l' body
  end.

(** The names bound before any query or KPI. *)
Definition initial_localdict : gmap string value :=
  <["registry" := VObj Registry]>
  (<["sum" := VObj (Builtin "_sum")]>
  (<["min" := VObj (Builtin "_min")]>
  (<["max" := VObj (Builtin "_max")]>
  (<["len" := VObj (Builtin "len")]>
  (<["avg" := VObj (Builtin "_avg")]>
  (<["AccountingNone" := VAccountingNone]> ∅)))))).

(** [recordset |= record] on KPIs: a record already there is not added
    again.  The order of the records of a union is left to the ORM; the
    model adds at the end, and the properties of the evaluator proved for
    every template depend on the members and the size of the queue
    only. *)
Definition union_kpi (q : list kpi) (k : kpi) : list kpi :=
  if existsb (fun k' => k_id k' =? k_id k) q then q else q ++ [k].

(** [recordset |= recordset] on reports *)
Definition union_reports (a b : list report) : list report :=
  a ++ List.filter
         (fun r => negb (existsb (fun r' => r_id r' =? r_id r) a)) b.

Definition is_nil {A} (l : list A) : bool :=
  match l with [] => true | _ => false end.

(** [recordset.code]: defined on a single record *)
Definition singleton (rs : list report) : result report :=
  match rs with
  | [r] => Ok r
  | _ => Raise (mkExc OtherError "Expected singleton")
  end.

(** [not d.get(code)]: no entry, or an empty one *)
Definition memo_missing (memo : gmap string (gmap (option string) cell))
    (code : string) : bool :=
  match memo !! code with
  | None => true
  | Some d => bool_decide (size d = 0%nat)
  end.

Definition NL2 : string := bytes [10; 10]%nat.

Section WithEnv.
Context (E : env).

(** [_fetch_queries]: one entry per query, under the name of the
    query. *)
Definition _fetch_queries (self : report) (date_from date_to : option Date.date)
  : gmap string value :=
  fold_left (fun res q => <[q_name q := run_query E q date_from date_to]> res)
            (r_query_ids self) ∅.

(** [self.search([('code', '=', report_code)])] *)
Definition search_code (report_code : string) : list report :=
  List.filter (fun r => String.eqb (r_code r) report_code) (all_reports E).

(** [kpi_name in recordset.kpi_ids.mapped('name')] *)
Definition declares (rs : list report) (kpi_name : string) : bool :=
  existsb (fun r => existsb (fun k => String.eqb (k_name k) kpi_name)
                            (r_kpi_ids r)) rs.

Section Compute.
Context (self : report) (lang_id : Z) (dates : period_dates)
        (target : target_move) (period_id : option Z)
        (sub_compute : report -> list event * result (list block)).

(** The column of a row of a sub-report for the period at hand, [{}]
    when there is none. *)
Definition find_col (cols : list cell) : cell :=
  match List.find
          (fun c => bool_decide (cell_period_id c = period_id)) cols with
  | Some c => c
  | None => CellEmpty
  end.

(** The body of [for kpi_col in content] *)
Definition bind_row (code : string) (kpi_col : row) : M unit :=
  let kpi_unique_name := row_kpi_unique_name kpi_col in
  let kpi_unique_col := find_col (row_cols kpi_col) in
  modify (set_inherit_subreport_vals (fun memo =>
    <[code := <[kpi_unique_name := kpi_unique_col]>
                (default ∅ (memo !! code))]> memo)) ;;
  match kpi_unique_name with
  | None => lift (Raise (mkExc TypeError
               "cannot concatenate 'str' and 'NoneType' objects"))
  | Some n =>
      modify (set_localdict
                <[code +:+ "_" +:+ n := cell_val kpi_unique_col]>)
  end.

(** The body of [for sub_expression in sub_expressions] *)
Definition sub_report_search (sub_expression : string) : M unit :=
  if negb (Re.contains_dot sub_expression) then mret tt
  else
    '(report_code, kpi_name) ←
       lift (Re.unpack2 (Re.split_dot sub_expression));
    let inherit_report_id := search_code report_code in
    if negb (is_nil inherit_report_id)
       && declares inherit_report_id kpi_name
    then
      modify (fun s => set_kpi_eval_expression
                         (Re.sub_dotted (kpi_eval_expression s)) s) ;;
      modify (fun s => set_inherit_active_subreport_ids
                         (union_reports (inherit_active_subreport_ids s)
                                        inherit_report_id) s) ;;
      r ← lift (singleton inherit_report_id);
      memo ← gets inherit_subreport_vals;
      if memo_missing memo (r_code r) then
        modify (set_inherit_subreport_vals <[r_code r := ∅]>) ;;
        let '(evs, inherit_subreport_vals_res) := sub_compute r in
        modify (log_sub_call (r_code r) (EvSubReport (r_id r) :: evs)) ;;
        blocks ← lift inherit_subreport_vals_res;
        for_each (flat_map b_content blocks) (bind_row (r_code r))
      else mret tt
    else mret tt.

(** The body of [try:] *)
Definition try_block (kpi : kpi) : M value :=
  modify (set_kpi_eval_expression
            (aep_replace_expr E self dates target (k_expression kpi))) ;;
  (if Re.contains_dot (k_expression kpi) then
     e ← gets kpi_eval_expression;
     for_each (_sub_expressions e) sub_report_search
   else mret tt) ;;
  e ← gets kpi_eval_expression;
  modify (log_eval e) ;;
  scope ← gets localdict;
  kpi_val ← lift (safe_eval E e scope);
  modify (set_localdict <[k_name kpi := kpi_val]>) ;;
  mret kpi_val.

(** [kpi_style]: its own [try], any exception gives [None] *)
Definition eval_style (kpi : kpi) (scope : gmap string value) : value :=
  match k_css_style kpi with
  | Some css =>
      if negb (String.eqb css "") then
        match safe_eval E css scope with
        | Ok v => v
        | Raise _ => VNone
        end
      else VNone
  | None => VNone
  end.

(** The body of [for kpi in compute_queue] *)
Definition eval_kpi (kpi : kpi) : M unit := fun s0 =>
  let s0 := set_inherit_active_subreport_ids [] s0 in
  let kpi_val_comment := k_name kpi +:+ " = " +:+ k_expression kpi in
  let '(r, s1) := try_block kpi s0 in
  let '(kpi_val, rendered, kpi_val_comment, s2) :=
    match r with
    | Ok v => (v, MisReportKpi.render E kpi lang_id v, kpi_val_comment, s1)
    | Raise e =>
        let comment := kpi_val_comment +:+ NL2 +:+ exc_msg e in
        match exc_cls e with
        | ZeroDivisionError => (VNone, Ok "#DIV/0", comment, s1)
        | NameError | ValueError =>
            (VNone, Ok "#ERR", comment,
             set_recompute_queue (union_kpi (recompute_queue s1) kpi) s1)
        | _ => (VNone, Ok "#ERR", comment, s1)
        end
    end in
  match rendered with
  | Raise e => (Raise e, s2)
  | Ok kpi_val_rendered =>
      let kpi_style := eval_style kpi (localdict s2) in
      let drilldown :=
        is_nil (inherit_active_subreport_ids s2)
        && negb (is_None kpi_val)
        && aep_has_account_var E (k_expression kpi) in
      (Ok tt,
       set_res <[k_name kpi := {|
         val := if is_AccountingNone kpi_val then VNone else kpi_val;
         val_r := kpi_val_rendered;
         val_c := kpi_val_comment;
         style := kpi_style;
         res_prefix := k_prefix kpi;
         res_suffix := k_suffix kpi;
         res_dp := k_dp kpi;
         res_kpi_id := k_id kpi;
         is_percentage := match k_type kpi with KPct => true | _ => false end;
         res_period_id := period_id;
         expr := k_expression kpi;
         drilldown := drilldown;
         sub_report_ids := map r_id (inherit_active_subreport_ids s2)
       |}]> s2)
  end.

(** [while True:] with the number of passes made so far; [None] when
    [fuel] passes were not enough. *)
Fixpoint loop (fuel : nat) (compute_queue : list kpi) (passes : nat)
    (s : st) : option (result nat * st) :=
  match fuel with
  | O => None
  | S fuel' =>
      match for_each compute_queue eval_kpi s with
      | (Raise e, s') => Some (Raise e, s')
      | (Ok _, s') =>
          if (length (recompute_queue s') =? 0)%nat
          then Some (Ok (S passes), s')
          else if (length (recompute_queue s') =? length compute_queue)%nat
          then Some (Ok (S passes), s')
          else loop fuel' (recompute_queue s') (S passes)
                    (set_recompute_queue [] s')
      end
  end.

Definition initial_state : st :=
  {| localdict :=
       _fetch_queries self (date_from dates) (date_to dates)
       ∪ initial_localdict;
     recompute_queue := [];
     inherit_subreport_vals := ∅;
     res := ∅;
     kpi_eval_expression := "";
     inherit_active_subreport_ids := [];
     eval_log := [];
     sub_calls := [];
     trace := [EvCompute (r_id self) period_id] |}.

(** Evaluate a report for a given period: the number of passes of the
    loop and the final state, whose [res] is the dictionary
    returned.  The loop ends within the passes given to it
    ([loop_enough_fuel]). *)
Definition _compute : result nat * st :=
  match loop (S (length (r_kpi_ids self))) (r_kpi_ids self) 0
             initial_state with
  | Some out => out
  | None => (Raise (mkExc RuntimeError "unreachable"), initial_state)
  end.

End Compute.
End WithEnv.

End MisReport.

(** ** The report assembler ([mis.report.instance]) *)

Module MisReportInstance.

Import MisReport.

Definition key_error (k : string) : exc := mkExc OtherError ("KeyError: " +:+ k).

Definition row_named (name : string) (r : row) : bool :=
  match row_kpi_unique_name r with
  | Some n => String.eqb n name
  | None => false
  end.

Definition add_col (c : cell) (r : row) : row :=
  mkRow (row_kpi_name r) (row_kpi_unique_name r) (row_cols r ++ [c])
        (row_default_style r) (row_column r) (row_invisible r).

(** [rows_by_kpi_name[name]['cols'].append(c)]: the row registered under
    a name is the last one built with it; the flag tells whether it was
    found. *)
Fixpoint append_last (name : string) (c : cell) (content : list row)
  : list row * bool :=
  match content with
  | [] => ([], false)
  | r :: rest =>
      let '(rest', found) := append_last name c rest in
      if found then (r :: rest', true)
      else if row_named name r then (add_col c r :: rest', true)
      else (r :: rest', false)
  end.

Definition append_col (name : string) (c : cell) (content : list row)
  : result (list row) :=
  match append_last name c content with
  | (content', true) => Ok content'
  | (_, false) => Raise (key_error name)
  end.

(** The rows registered in [rows_by_kpi_name] *)
Fixpoint registered (content : list row) : list row :=
  match content with
  | [] => []
  | r :: rest =>
      if existsb (fun r' => bool_decide (row_kpi_unique_name r'
                                         = row_kpi_unique_name r)) rest
      then registered rest
      else r :: registered rest
  end.

(** The elements of a set of column numbers, in increasing order (the
    order in which Python iterates on a set of the integers 0..n). *)
Fixpoint insert_sorted (n : nat) (l : list nat) : list nat :=
  match l with
  | [] => [n]
  | m :: l' => if (n <? m)%nat then n :: l
               else if (n =? m)%nat then l
               else m :: insert_sorted n l'
  end.

Definition set_of (l : list nat) : list nat :=
  fold_right insert_sorted [] l.

(** The header and the rows before any period: the captions of the
    header entries (which share one list of columns) and the content. *)
Definition layout_step (acc : nat * list string * list row) (kpi : kpi)
  : nat * list string * list row :=
  let '(column, captions, content) := acc in
  let '(column, captions) :=
    if k_column_break kpi
    then (S column,
          captions ++ [if k_column_title kpi then k_description kpi else ""])
    else (column, captions) in
  (column, captions,
   content ++ [{| row_kpi_name := k_description kpi;
                  row_kpi_unique_name := Some (k_name kpi);
                  row_cols := [];
                  row_default_style := k_default_css_style kpi;
                  row_column := column;
                  row_invisible := k_column_title kpi || k_invisible kpi |}]).

Definition layout (kpi_ids : list kpi) : list string * list row :=
  let '(_, captions, content) := fold_left layout_step kpi_ids (O, [""], []) in
  (captions, content).

Section WithEnv.
Context (E : env).

Definition is_week (t : period_type) : bool :=
  match t with PWeek => true | _ => false end.

(** The caption of the column of a period *)
Definition header_date (period : instance_period) (d : period_dates)
  : string :=
  let lang_id := user_lang_id E in
  if (1 <? ip_duration period) || is_week (ip_type period) then
    match period_from d, period_to d with
    | Some pf, Some pt =>
        "from " +:+ ap_name pf +:+ " to " +:+ ap_name pt
    | _, _ =>
        "from " +:+ format_date E lang_id (date_from d)
        +:+ " to " +:+ format_date E lang_id (date_to d)
    end
  else
    match period_from d, period_to d with
    | Some pf, Some _ => ap_name pf
    | _, _ => format_date E lang_id (date_from d)
    end.

Section Compute.
Context (self : instance) (report_id : report)
        (sub_compute : report -> list event * result (list block)).

(** The computed fields of a period of the instance *)
Definition dates_of (period : instance_period) : result period_dates :=
  MisReportInstancePeriod._compute_dates
    (account_periods E) (i_company_id self) (i_pivot_date self) period.

(** [MisReportInstancePeriod._compute]: the evaluation of the report
    for a period *)
Definition period_compute (period : instance_period) (d : period_dates)
  : result nat * st :=
  MisReport._compute E report_id (user_lang_id E) d
    (i_target_move self) (Some (ip_id period)) sub_compute.

(** compute kpi values for each period *)
Fixpoint compute_periods (periods : list instance_period)
    (acc : gmap Z (gmap string kpi_result)) (evs : list event)
  : list event * result (gmap Z (gmap string kpi_result)) :=
  match periods with
  | [] => (evs, Ok acc)
  | period :: rest =>
      match dates_of period with
      | Raise e => (evs, Raise e)
      | Ok d =>
          if negb (valid d) then compute_periods rest acc evs
          else
            match period_compute period d with
            | (Raise e, s) => (evs ++ trace s, Raise e)
            | (Ok _, s) =>
                compute_periods rest (<[ip_id period := res s]> acc)
                                (evs ++ trace s)
            end
      end
  end.

Definition find_period (id : Z) : option instance_period :=
  List.find (fun p => ip_id p =? id) (i_period_ids self).

Definition lookup_val (kpi_values : gmap string kpi_result)
    (name : string) : result value :=
  match kpi_values !! name with
  | Some r => Ok (val r)
  | None => Raise (key_error name)
  end.

(** add comparison values *)
Fixpoint add_comparisons (kpis : list kpi) (period compare_col : instance_period)
    (kpi_values compare_kpi_values : gmap string kpi_result)
    (content : list row) : result (list row) :=
  match kpis with
  | [] => Ok content
  | kpi :: rest =>
      v ← lookup_val kpi_values (k_name kpi);
      b ← lookup_val compare_kpi_values (k_name kpi);
      rendered ← MisReportKpi.render_comparison E kpi (user_lang_id E)
                    v b (ip_normalize_factor period)
                    (ip_normalize_factor compare_col);
      content ← append_col (k_name kpi) (CellCmp rendered) content;
      add_comparisons rest period compare_col kpi_values
                      compare_kpi_values content
  end.

(** add kpi values *)
Fixpoint add_values (entries : list (string * kpi_result))
    (content : list row) : result (list row) :=
  match entries with
  | [] => Ok content
  | (kpi_name, r) :: rest =>
      content ← append_col kpi_name (CellKpi r) content;
      add_values rest content
  end.

(** add comparison columns *)
Fixpoint add_comparison_columns (compare_ids : list Z)
    (kpi_values_by_period_ids : gmap Z (gmap string kpi_result))
    (period : instance_period) (kpi_values : gmap string kpi_result)
    (acc : list header_col * list row)
  : result (list header_col * list row) :=
  match compare_ids with
  | [] => Ok acc
  | id :: rest =>
      let '(cols, content) := acc in
      match kpi_values_by_period_ids !! id, find_period id with
      | Some compare_kpi_values, Some compare_col =>
          if bool_decide (size compare_kpi_values = 0%nat)
          then add_comparison_columns rest kpi_values_by_period_ids
                 period kpi_values acc
          else
            content ← add_comparisons (r_kpi_ids report_id) period
                        compare_col kpi_values compare_kpi_values content;
            add_comparison_columns rest kpi_values_by_period_ids
              period kpi_values
              (cols ++ [mkHeaderCol (ip_name period +:+ " vs "
                                     +:+ ip_name compare_col) ""],
               content)
      | _, _ => add_comparison_columns rest kpi_values_by_period_ids
                  period kpi_values acc
      end
  end.

(** populate header and content *)
Fixpoint populate (periods : list instance_period)
    (kpi_values_by_period_ids : gmap Z (gmap string kpi_result))
    (acc : list header_col * list row)
  : result (list header_col * list row) :=
  match periods with
  | [] => Ok acc
  | period :: rest =>
      d ← dates_of period;
      if negb (valid d) then populate rest kpi_values_by_period_ids acc
      else
        let '(cols, content) := acc in
        let cols := cols ++ [mkHeaderCol (ip_name period)
                                         (header_date period d)] in
        match kpi_values_by_period_ids !! ip_id period with
        | None => Raise (key_error "period id")
        | Some kpi_values =>
            content ← add_values (map_to_list kpi_values) content;
            acc ← add_comparison_columns
                    (ip_comparison_column_ids period)
                    kpi_values_by_period_ids period kpi_values
                    (cols, content);
            populate rest kpi_values_by_period_ids acc
        end
  end.

(** The grid: one block per column of KPIs *)
Definition blocks_of (captions : list string) (cols : list header_col)
    (content : list row) : list block :=
  map (fun column =>
         {| b_header := [mkHeader (nth column captions "") cols];
            b_content :=
              List.filter (fun r => (row_column r =? column)%nat
                                    && negb (row_invisible r)) content |})
      (set_of (map row_column (registered content))).

Definition assemble : list event * result (list block) :=
  match compute_periods (i_period_ids self) ∅ [] with
  | (evs, Raise e) => (evs, Raise e)
  | (evs, Ok kpi_values_by_period_ids) =>
      let '(captions, content) := layout (r_kpi_ids report_id) in
      (evs,
       '(cols, content) ← populate (i_period_ids self)
                            kpi_values_by_period_ids ([], content);
       let result := blocks_of captions cols content in
       if r_matrix report_id || r_manual_position report_id
       then reshape E report_id result
       else Ok result)
  end.

End Compute.

(** [MisReportInstance._compute(report_id)]; a KPI of the report may ask
    for the evaluation of another report by the same instance, to a
    depth of at most [depth] calls (the recursion limit of the
    interpreter). *)
Fixpoint _compute (depth : nat) (self : instance) (report_id : report)
  : list event * result (list block) :=
  match depth with
  | O => ([], Raise (mkExc RuntimeError
                       "maximum recursion depth exceeded"))
  | S depth' => assemble self report_id (_compute depth' self)
  end.

(** [MisReportInstance.compute] *)
Definition compute (depth : nat) (self : instance)
  : list event * result (list block) :=
  _compute depth self (i_report_id self).

End WithEnv.

End MisReportInstance.

(** ** A small evaluator and a small database, for the examples

    [safe_eval] evaluates any Python expression; the examples below only
    need integer and decimal literals, names, attribute access, the four
    operations and parentheses, evaluated as Python does. *)

Module PyEval.

Inductive token : Set :=
| TNum (v : value)
| TId (s : string)
| TPlus | TMinus | TStar | TSlash | TLParen | TRParen | TDot
| TBad.

Definition digit_val (c : ascii) : Z := Z.of_N (N_of_ascii c) - 48.

Fixpoint digits_val (s : string) (acc : Z) : Z :=
  match s with
  | EmptyString => acc
  | String c s' => digits_val s' (acc * 10 + digit_val c)
  end.

(** [fuel] bounds the number of tokens, at most the length of the text. *)
Fixpoint tokenize (fuel : nat) (s : string) : list token :=
  match fuel with
  | O => []
  | S fuel' =>
      match s with
      | EmptyString => []
      | String c s' =>
          if Ascii.eqb c " "%char then tokenize fuel' s'
          else if Re.is_digit c then
            let '(ds, rest) := Re.span Re.is_digit s in
            match rest with
            | String d rest' =>
                if Re.is_dot d then
                  let '(fs, rest'') := Re.span Re.is_digit rest' in
                  TNum (VFloat (inject_Z (digits_val ds 0)
                                + inject_Z (digits_val fs 0)
                                  / inject_Z (10 ^ Z.of_nat (String.length fs))))
                  :: tokenize fuel' rest''
                else TNum (VInt (digits_val ds 0)) :: tokenize fuel' rest
            | EmptyString => [TNum (VInt (digits_val ds 0))]
            end
          else if Re.is_alpha c || Ascii.eqb c "_"%char then
            let '(w, rest) := Re.span Re.is_word s in
            TId w :: tokenize fuel' rest
          else
            (if Ascii.eqb c "+"%char then TPlus
             else if Ascii.eqb c "-"%char then TMinus
             else if Ascii.eqb c "*"%char then TStar
             else if Ascii.eqb c "/"%char then TSlash
             else if Ascii.eqb c "("%char then TLParen
             else if Ascii.eqb c ")"%char then TRParen
             else if Re.is_dot c then TDot
             else TBad) :: tokenize fuel' s'
      end
  end.

Inductive binop : Set := Add | Sub | Mul | Div.

Inductive pexpr : Set :=
| ENum (v : value)
| EName (s : string)
| EAttr (e : pexpr) (a : string)
| ENeg (e : pexpr)
| EBin (op : binop) (a b : pexpr).

Fixpoint parse_attrs (fuel : nat) (e : pexpr) (ts : list token)
  : pexpr * list token :=
  match fuel, ts with
  | S fuel', TDot :: TId a :: rest => parse_attrs fuel' (EAttr e a) rest
  | _, _ => (e, ts)
  end.

Fixpoint parse_expr (fuel : nat) (ts : list token)
  : option (pexpr * list token) :=
  match fuel with
  | O => None
  | S fuel' =>
      let parse_factor :=
        fix parse_factor (n : nat) (ts : list token)
          : option (pexpr * list token) :=
          match n with
          | O => None
          | S n' =>
              match ts with
              | TMinus :: rest =>
                  match parse_factor n' rest with
                  | Some (e, rest') => Some (ENeg e, rest')
                  | None => None
                  end
              | TNum v :: rest => Some (parse_attrs fuel' (ENum v) rest)
              | TId s :: rest => Some (parse_attrs fuel' (EName s) rest)
              | TLParen :: rest =>
                  match parse_expr fuel' rest with
                  | Some (e, TRParen :: rest') =>
                      Some (parse_attrs fuel' e rest')
                  | _ => None
                  end
              | _ => None
              end
          end in
      let parse_term_rest :=
        fix parse_term_rest (n : nat) (lhs : pexpr) (ts : list token)
          : option (pexpr * list token) :=
          match n with
          | O => None
          | S n' =>
              match ts with
              | TStar :: rest =>
                  match parse_factor fuel' rest with
                  | Some (rhs, rest') =>
                      parse_term_rest n' (EBin Mul lhs rhs) rest'
                  | None => None
                  end
              | TSlash :: rest =>
                  match parse_factor fuel' rest with
                  | Some (rhs, rest') =>
                      parse_term_rest n' (EBin Div lhs rhs) rest'
                  | None => None
                  end
              | _ => Some (lhs, ts)
              end
          end in
      let parse_term := fun ts =>
        match parse_factor fuel' ts with
        | Some (lhs, rest) => parse_term_rest fuel' lhs rest
        | None => None
        end in
      let parse_expr_rest :=
        fix parse_expr_rest (n : nat) (lhs : pexpr) (ts : list token)
          : option (pexpr * list token) :=
          match n with
          | O => None
          | S n' =>
              match ts with
              | TPlus :: rest =>
                  match parse_term rest with
                  | Some (rhs, rest') =>
                      parse_expr_rest n' (EBin Add lhs rhs) rest'
                  | None => None
                  end
              | TMinus :: rest =>
                  match parse_term rest with
                  | Some (rhs, rest') =>
                      parse_expr_rest n' (EBin Sub lhs rhs) rest'
                  | None => None
                  end
              | _ => Some (lhs, ts)
              end
          end in
      match parse_term ts with
      | Some (lhs, rest) => parse_expr_rest fuel' lhs rest
      | None => None
      end
  end.

Definition parse (s : string) : option pexpr :=
  let ts := tokenize (S (String.length s)) s in
  match parse_expr (S (S (length ts))) ts with
  | Some (e, []) => Some e
  | _ => None
  end.

Definition name_error (n : string) : exc :=
  mkExc NameError ("NameError: name '" +:+ n +:+ "' is not defined").

Definition apply_binop (op : binop) (a b : value) : result value :=
  match op with
  | Add => PyNum.add a b
  | Sub => PyNum.sub a b
  | Mul => PyNum.mul a b
  | Div => PyNum.div a b
  end.

Fixpoint eval (scope : gmap string value) (e : pexpr) : result value :=
  match e with
  | ENum v => Ok v
  | EName n =>
      match scope !! n with
      | Some v => Ok v
      | None => Raise (name_error n)
      end
  | EAttr e a =>
      _ ← eval scope e;
      Raise (mkExc AttributeError
               ("AttributeError: object has no attribute '" +:+ a +:+ "'"))
  | ENeg e => v ← eval scope e; PyNum.sub (VInt 0) v
  | EBin op a b =>
      x ← eval scope a; y ← eval scope b; apply_binop op x y
  end.

Definition py_eval (expr : string) (scope : gmap string value)
  : result value :=
  match parse expr with
  | Some e => eval scope e
  | None => Raise (mkExc SyntaxError "SyntaxError: invalid syntax")
  end.

End PyEval.

Module Examples.

(** ['%<sign>.<dp>f' % q] without grouping *)
Definition digits_of (n : Z) : string :=
  NilZero.string_of_uint (N.to_uint (Z.to_N n)).

Fixpoint pad_left (width : nat) (s : string) : string :=
  match width with
  | O => s
  | S w => if (String.length s <? width)%nat
           then pad_left w ("0" +:+ s) else s
  end.

Definition format_float (lang_id : Z) (plus : bool) (dp : Z) (q : Q)
  : result string :=
  if dp <? 0 then Raise (mkExc ValueError "unsupported format character")
  else
    let n := PyNum.round_half_away (q * PyNum.pow10 dp) in
    let sign := if n <? 0 then "-" else if plus then "+" else "" in
    let a := Z.abs n in
    let int_part := digits_of (a / 10 ^ dp) in
    Ok (sign +:+ int_part +:+
        (if dp =? 0 then ""
         else "." +:+ pad_left (Z.to_nat dp)
                               (digits_of (a mod 10 ^ dp)))).

Definition unicode (v : value) : string :=
  match v with
  | VStr s => s
  | VInt z => (if z <? 0 then "-" else "") +:+ digits_of (Z.abs z)
  | VNone => "None"
  | _ => "?"
  end.

(** A KPI with the defaults of the fields *)
Definition mk_kpi (id : Z) (name expression : string) : kpi :=
  {| k_id := id; k_name := name; k_description := name;
     k_column_break := false; k_column_title := false;
     k_invisible := false; k_expression := expression;
     k_default_css_style := None; k_css_style := None;
     k_type := KNum; k_divider := D1; k_dp := 0;
     k_prefix := None; k_suffix := None;
     k_compare_method := CmpPct; k_sequence := 100 |}.

Definition mk_report (id : Z) (code : string) (kpis : list kpi) : report :=
  {| r_id := id; r_name := code; r_code := code; r_query_ids := [];
     r_kpi_ids := kpis; r_matrix := false; r_manual_position := false |}.

Definition mk_period (id : Z) (name : string) (t : period_type)
    (offset duration : Z) : instance_period :=
  {| ip_id := id; ip_name := name; ip_type := t; ip_offset := offset;
     ip_duration := duration; ip_normalize_factor := 1;
     ip_comparison_column_ids := []; ip_template_period_id := None |}.

(** An accounting expression processor on formulas without account
    tokens, the evaluator [PyEval.py_eval], and the tables given. *)
Definition example_env (reports : list report)
    (periods : list account_period) : env :=
  {| safe_eval := PyEval.py_eval;
     aep_replace_expr := fun _ _ _ e => e;
     aep_has_account_var := fun _ => false;
     run_query := fun _ _ _ => VNone;
     lang_format := format_float;
     unicode_of := unicode;
     user_lang_id := 1;
     format_date := fun _ d =>
       match d with Some n => digits_of n | None => "" end;
     all_reports := reports;
     account_periods := periods;
     reshape := fun _ blocks => Ok blocks |}.

(** The template of the forward reference: [a = b + 1], [b = 2]. *)
Definition kpi_a : kpi := mk_kpi 1 "a" "b + 1".
Definition kpi_b : kpi := mk_kpi 2 "b" "2".
Definition forward_report : report := mk_report 1 "fwd" [kpi_a; kpi_b].

Definition day_dates : period_dates :=
  {| date_from := Some (Date._ymd2ord 2024 3 14);
     date_to := Some (Date._ymd2ord 2024 3 14);
     period_from := None; period_to := None; valid := true |}.

Definition no_sub_report (r : report)
  : list MisReport.event * result (list block) :=
  ([], Raise (mkExc RuntimeError "no instance")).

Definition forward_run : result nat * MisReport.st :=
  MisReport._compute (example_env [forward_report] []) forward_report 1
    day_dates Posted (Some 7) no_sub_report.

(** The template of the margin: no revenue, a division by zero. *)
Definition kpi_revenue : kpi := mk_kpi 1 "revenue" "0".
Definition kpi_cost : kpi := mk_kpi 2 "cost" "5".
Definition kpi_margin : kpi :=
  mk_kpi 3 "margin_pct" "(revenue - cost) / revenue".
Definition margin_report : report :=
  mk_report 2 "margin" [kpi_revenue; kpi_cost; kpi_margin].

(** The state of the evaluation of [margin_report] when the loop reaches
    [margin_pct]. *)
Definition margin_state : MisReport.st :=
  (MisReport.for_each [kpi_revenue; kpi_cost]
     (MisReport.eval_kpi (example_env [margin_report] []) margin_report 1
        day_dates Posted (Some 7) no_sub_report)
     (MisReport.initial_state (example_env [margin_report] [])
        margin_report day_dates (Some 7))).2.

(** A report [top] whose KPIs refer to the KPIs [x] and [yy] of a report
    [sub], and an instance of [top] over two days. *)
Definition sub_report : report :=
  mk_report 20 "sub" [mk_kpi 21 "x" "2"; mk_kpi 22 "yy" "5"].
Definition kpi_k1 : kpi := mk_kpi 11 "k1" "sub.x + 1".
Definition kpi_k2 : kpi := mk_kpi 12 "k2" "sub.yy + 1".
Definition top_report : report := mk_report 10 "top" [kpi_k1; kpi_k2].

Definition today : instance_period := mk_period 1 "today" PDay 0 1.
Definition yesterday : instance_period := mk_period 2 "yesterday" PDay (-1) 1.

Definition top_instance : instance :=
  {| i_id := 2; i_name := "top";
     i_pivot_date := Date._ymd2ord 2024 3 15;
     i_report_id := top_report;
     i_period_ids := [today; yesterday];
     i_target_move := Posted; i_company_id := 1; i_root_account := 1 |}.

Definition sub_env : env := example_env [top_report; sub_report] [].

Definition today_dates : period_dates :=
  {| date_from := Some (Date._ymd2ord 2024 3 15);
     date_to := Some (Date._ymd2ord 2024 3 15);
     period_from := None; period_to := None; valid := true |}.

(** The evaluation of [top] for [today] by the instance. *)
Definition top_today : result nat * MisReport.st :=
  MisReportInstance.period_compute sub_env top_instance top_report
    (MisReportInstance._compute sub_env 2 top_instance) today today_dates.

(** A numeric KPI compared by difference, without decimals *)
Definition kpi_diff : kpi :=
  {| k_id := 4; k_name := "sales"; k_description := "Sales";
     k_column_break := false; k_column_title := false;
     k_invisible := false; k_expression := "0";
     k_default_css_style := None; k_css_style := None;
     k_type := KNum; k_divider := D1; k_dp := 0;
     k_prefix := None; k_suffix := None;
     k_compare_method := CmpDiff; k_sequence := 100 |}.

(** Three ledger periods of 2024 and an instance with a valid fiscal
    period (March), one beyond the last ledger period and one before the
    first. *)
Definition ledger : list account_period :=
  [ mkAccountPeriod 11 "01/2024" (Date._ymd2ord 2024 1 1)
      (Date._ymd2ord 2024 1 31) false 1;
    mkAccountPeriod 12 "02/2024" (Date._ymd2ord 2024 2 1)
      (Date._ymd2ord 2024 2 29) false 1;
    mkAccountPeriod 13 "03/2024" (Date._ymd2ord 2024 3 1)
      (Date._ymd2ord 2024 3 31) false 1 ].

Definition fp_current : instance_period :=
  mk_period 1 "current" PFiscalPeriod 0 1.
Definition fp_next : instance_period :=
  mk_period 2 "next" PFiscalPeriod 1 1.
Definition fp_before : instance_period :=
  mk_period 3 "before" PFiscalPeriod (-3) 1.

Definition fiscal_instance : instance :=
  {| i_id := 1; i_name := "fiscal";
     i_pivot_date := Date._ymd2ord 2024 3 15;
     i_report_id := forward_report;
     i_period_ids := [fp_next; fp_current; fp_before];
     i_target_move := Posted; i_company_id := 1; i_root_account := 1 |}.

End Examples.

(** ** Names of KPIs, queries and reports *)

Module Names.

(** [c.lower()] on a character *)
Definition lower_char (c : ascii) : ascii :=
  let n := N_of_ascii c in
  if ((65 <=? n) && (n <=? 90))%N then ascii_of_N (n + 32) else c.

Fixpoint lower (s : string) : string :=
  match s with
  | EmptyString => EmptyString
  | String c s' => String (lower_char c) (lower s')
  end.

(** Every character that is not a word character replaced by [_] *)
Fixpoint sub_nonword (s : string) : string :=
  match s with
  | EmptyString => EmptyString
  | String c s' =>
      String (if Re.is_word c then c else "_"%char) (sub_nonword s')
  end.

(** [re.sub(r'\W|^(?=\d)', '_', var_str).lower()]: an underscore for
    every character that is not a word character, and one more in front of
    a leading digit. *)
Definition _python_var (var_str : string) : string :=
  lower (match var_str with
         | String c _ =>
             if Re.is_digit c then String "_"%char (sub_nonword var_str)
             else sub_nonword var_str
         | EmptyString => EmptyString
         end).

Definition NEWLINE : string := bytes [10%nat].

(** [re.match("[_A-Za-z][_a-zA-Z0-9]*$", name)]: [$] matches at the end
    of the string and before a newline that ends it. *)
Definition _is_valid_python_var (name : string) : bool :=
  match name with
  | String c rest =>
      (Re.is_alpha c || Ascii.eqb c "_"%char)
      && (let '(_, tail) := Re.span Re.is_word rest in
          String.eqb tail EmptyString || String.eqb tail NEWLINE)
  | EmptyString => false
  end.

End Names.

(** ** Vocabulary of the properties *)

(** [steps R m]: whatever the state [s] before and the outcome, running
    the statement [m] leads to a state related to [s] by [R]. *)
Definition steps {A} (R : MisReport.st -> MisReport.st -> Prop)
    (m : MisReport.M A) : Prop :=
  forall s, R s (m s).2.

(** What the body of [try:] leaves alone: the retry queue and the
    results. *)
Definition frame (s s' : MisReport.st) : Prop :=
  MisReport.recompute_queue s' = MisReport.recompute_queue s
  /\ MisReport.res s' = MisReport.res s.

(** [produced_by kpi s r]: [r] is the record the loop body builds for
    [kpi] when it starts in state [s]. *)
Definition produced_by (E : env) (self : report) (dates : period_dates)
    (target : target_move) (period_id : option Z)
    (sub_compute : report -> list MisReport.event * result (list block))
    (kpi : kpi) (s : MisReport.st) (r : kpi_result) : Prop :=
  let out := MisReport.try_block E self dates target period_id sub_compute kpi
               (MisReport.set_inherit_active_subreport_ids [] s) in
  let kpi_val := match out.1 with Ok v => v | Raise _ => VNone end in
  let active := MisReport.inherit_active_subreport_ids out.2 in
  val r = (if is_AccountingNone kpi_val then VNone else kpi_val)
  /\ expr r = k_expression kpi
  /\ res_period_id r = period_id
  /\ sub_report_ids r = map r_id active
  /\ drilldown r = MisReport.is_nil active && negb (is_None kpi_val)
                   && aep_has_account_var E (k_expression kpi).

(** Every record of the results was produced by the loop body for a KPI
    of that name. *)
Definition res_produced (E : env) (self : report) (dates : period_dates)
    (target : target_move) (period_id : option Z)
    (sub_compute : report -> list MisReport.event * result (list block))
    (s : MisReport.st) : Prop :=
  forall name r, MisReport.res s !! name = Some r ->
    exists kpi s0, k_name kpi = name
      /\ produced_by E self dates target period_id sub_compute kpi s0 r.

(** [resolved_invalid self p]: the resolver marks the period [p] of the
    instance invalid. *)
Definition resolved_invalid (E : env) (self : instance)
    (p : instance_period) : bool :=
  match MisReportInstance.dates_of E self p with
  | Ok d => negb (valid d)
  | Raise _ => false
  end.

(** The instance with other periods *)
Definition with_periods (self : instance) (periods : list instance_period)
  : instance :=
  {| i_id := i_id self; i_name := i_name self;
     i_pivot_date := i_pivot_date self; i_report_id := i_report_id self;
     i_period_ids := periods; i_target_move := i_target_move self;
     i_company_id := i_company_id self; i_root_account := i_root_account self |}.

(** The instance without the periods resolved as invalid *)
Definition without_invalid (E : env) (self : instance) : instance :=
  with_periods self
    (List.filter (fun p => negb (resolved_invalid E self p))
                 (i_period_ids self)).

(** The number a value stands for, for integers and floats. *)
Definition num_of (v : value) : option Q :=
  match v with
  | VInt z => Some (inject_Z z)
  | VFloat q => Some q
  | _ => None
  end.

(** No data: [None] or the sentinel. *)
Definition absent (v : value) : bool := is_None v || is_AccountingNone v.

(** [q] is zero or rounds to zero at [dp] decimals. *)
Definition rounds_to_zero (q : Q) (dp : Z) : Prop :=
  (q == 0 \/ PyNum.round_dp q dp == 0)%Q.

(** *** Names of the evaluation scope *)

(** The names [_compute] binds before any query or KPI. *)
Definition seeded_names : list string :=
  ["registry"; "sum"; "min"; "max"; "len"; "avg"; "AccountingNone"].

(** The no-data-aware aggregates. *)
Definition aggregate_names : list string := ["sum"; "min"; "max"; "avg"].

Definition query_name (self : report) (n : string) : Prop :=
  exists q, In q (r_query_ids self) /\ q_name q = n.

Definition kpi_name (self : report) (n : string) : Prop :=
  exists k, In k (r_kpi_ids self) /\ k_name k = n.

(** [<code>_<name>] for a row [name] of the grid of a report [code] *)
Definition sub_report_name (E : env)
    (sub_compute : report -> list MisReport.event * result (list block))
    (n : string) : Prop :=
  exists r evs blocks row kn,
    In r (all_reports E) /\ sub_compute r = (evs, Ok blocks)
    /\ In row (flat_map b_content blocks)
    /\ row_kpi_unique_name row = Some kn
    /\ n = r_code r +:+ "_" +:+ kn.

(** The names C3 allows in the scope, and the names the code binds. *)
Definition claimed_scope_name (E : env) (self : report)
    (sub_compute : report -> list MisReport.event * result (list block))
    (n : string) : Prop :=
  In n aggregate_names \/ query_name self n \/ kpi_name self n
  \/ sub_report_name E sub_compute n.

Definition scope_name (E : env) (self : report)
    (sub_compute : report -> list MisReport.event * result (list block))
    (n : string) : Prop :=
  In n seeded_names \/ query_name self n \/ kpi_name self n
  \/ sub_report_name E sub_compute n.

(** Every name bound in the scope, now or at a logged call of [safe_eval],
    is a [scope_name], and the retry queue holds KPIs of the report. *)
Definition scope_inv (E : env) (self : report)
    (sub_compute : report -> list MisReport.event * result (list block))
    (s : MisReport.st) : Prop :=
  (forall n, is_Some (MisReport.localdict s !! n) ->
             scope_name E self sub_compute n)
  /\ (forall e sc, In (e, sc) (MisReport.eval_log s) ->
        forall n, is_Some (sc !! n) -> scope_name E self sub_compute n)
  /\ (forall k, In k (MisReport.recompute_queue s) -> In k (r_kpi_ids self)).

(** A text made of word characters *)
Definition all_word (s : string) : Prop :=
  forall c, In c (list_ascii_of_string s) -> Re.is_word c = true.

(** * Properties *)

Example ymd_2024_03_15 : Date._ymd2ord 2024 3 15 = 738960.
Proof. reflexivity. Qed.

Example friday_2024_03_15 : Date.weekday (Date._ymd2ord 2024 3 15) = 4.
Proof. reflexivity. Qed.

Example sub_expressions_ex :
  _sub_expressions "(sub.total + 800.0) / rep2.x" = ["sub.total"; "800.0"; "rep2.x"].
Proof. reflexivity. Qed.

Example sub_dotted_ex :
  Re.sub_dotted "(sub.total + 800.0) / rep2.x1 - a.bc" = "(sub_total + 800.0) / rep2_x1 - a.bc".
Proof. reflexivity. Qed.

Example split_ex : Re.split_dot "a.b.c" = ["a"; "b"; "c"] /\ Re.split_dot "ab" = ["ab"] /\ Re.split_dot "." = [""; ""].
Proof. repeat split. Qed.

Example py_eval_ex1 : PyEval.py_eval "(b + 1) * 2 - 6 / 4" (<["b" := VInt 2]> ∅) = Ok (VInt 5).
Proof. vm_compute. reflexivity. Qed.
Example py_eval_ex2 : exists m, PyEval.py_eval "b + 1" ∅ = Raise (mkExc NameError m).
Proof. vm_compute. eexists. reflexivity. Qed.
Example py_eval_ex3 : exists m, PyEval.py_eval "sub.x" (<["sub_x" := VInt 2]> ∅) = Raise (mkExc NameError m).
Proof. vm_compute. eexists. reflexivity. Qed.
Example py_eval_ex4 : exists m, PyEval.py_eval "1 / (b - 2)" (<["b" := VInt 2]> ∅) = Raise (mkExc ZeroDivisionError m).
Proof. vm_compute. eexists. reflexivity. Qed.

(** ** Reasoning on statements *)

Section Steps.
Import MisReport.

Context (R : st -> st -> Prop) `{!Reflexive R} `{!Transitive R}.

Lemma steps_ret {A} (a : A) : steps R (mret a).
Proof. intros s. simpl. reflexivity. Qed.

Lemma steps_lift {A} (r : result A) : steps R (lift r).
Proof. intros s. simpl. reflexivity. Qed.

Lemma steps_gets {A} (f : st -> A) : steps R (gets f).
Proof. intros s. simpl. reflexivity. Qed.

Lemma steps_modify (f : st -> st) : (forall s, R s (f s)) -> steps R (modify f).
Proof. intros H s. simpl. apply H. Qed.

Lemma steps_bind {A B} (m : M A) (f : A -> M B) :
  steps R m -> (forall a, steps R (f a)) -> steps R (m ≫= f).
Proof.
  intros Hm Hf s. unfold mbind, M_bind.
  specialize (Hm s). destruct (m s) as [[a|e] s']; simpl in *.
  - etransitivity; [exact Hm | apply Hf].
  - exact Hm.
Qed.

Lemma steps_bind_lift {A B} (r : result A) (f : A -> M B) :
  (forall a, r = Ok a -> steps R (f a)) -> steps R (lift r ≫= f).
Proof.
  intros Hf s. unfold mbind, M_bind, lift.
  destruct r as [a|e]; simpl; [apply (Hf a eq_refl) | reflexivity].
Qed.

Lemma steps_for_each {A} (l : list A) (body : A -> M unit) :
  (forall x, In x l -> steps R (body x)) -> steps R (for_each l body).
Proof.
  induction l as [|x l IH]; intros H; simpl.
  - apply steps_ret.
  - apply steps_bind; [apply H; left; reflexivity|].
    intros _. apply IH. intros y Hy. apply H. right. exact Hy.
Qed.

End Steps.

Ltac steps_go :=
  repeat match goal with
    | |- Reflexive _ => apply _
    | |- Transitive _ => apply _
    | |- steps _ (mret _) => apply steps_ret
    | |- steps _ (MisReport.lift _) => apply steps_lift
    | |- steps _ (MisReport.gets _) => apply steps_gets
    | |- steps _ (MisReport.modify _) => apply steps_modify
    | |- steps _ (_ ≫= _) => apply steps_bind
    | |- steps _ (MisReport.for_each _ _) => apply steps_for_each
    | |- steps _ (if ?b then _ else _) => destruct b
    | |- steps _ (match ?x with _ => _ end) => destruct x
    | |- forall _, _ => intro
    end.

#[local] Instance frame_refl : Reflexive frame.
Proof. intros s. split; reflexivity. Qed.

#[local] Instance frame_trans : Transitive frame.
Proof. intros s1 s2 s3 [H1 H2] [H3 H4]. split; congruence. Qed.

(** ** The evaluator: the retry queue *)

Section Evaluator.
Import MisReport.

Context (E : env) (self : report) (lang_id : Z) (dates : period_dates)
        (target : target_move) (period_id : option Z)
        (sub_compute : report -> list event * result (list block)).

Abbreviation try_block := (try_block E self dates target period_id sub_compute).
Abbreviation eval_kpi := (eval_kpi E self lang_id dates target period_id sub_compute).
Abbreviation loop := (loop E self lang_id dates target period_id sub_compute).

Lemma sub_report_search_frame e :
  steps frame (sub_report_search E period_id sub_compute e).
Proof.
  unfold sub_report_search, bind_row. steps_go; split; reflexivity.
Qed.

Lemma try_block_frame kpi : steps frame (try_block kpi).
Proof.
  unfold MisReport.try_block. steps_go;
    try (split; reflexivity); apply sub_report_search_frame.
Qed.

Lemma union_kpi_length q k : (length (union_kpi q k) <= S (length q))%nat.
Proof.
  unfold union_kpi. destruct (existsb _ q); [lia|].
  rewrite length_app. simpl. lia.
Qed.

Lemma eval_kpi_queue kpi s :
  (length (recompute_queue (eval_kpi kpi s).2)
   <= S (length (recompute_queue s)))%nat.
Proof.
  unfold MisReport.eval_kpi.
  pose proof (try_block_frame kpi (set_inherit_active_subreport_ids [] s))
    as [Hq _].
  destruct (try_block kpi _) as [[v|e] s1]; simpl in Hq.
  - destruct (MisReportKpi.render E kpi lang_id v); simpl; rewrite Hq; lia.
  - destruct (exc_cls e); simpl; rewrite ?Hq;
      try lia; pose proof (union_kpi_length (recompute_queue s1) kpi);
      rewrite Hq in *; lia.
Qed.

Lemma pass_queue q s :
  (length (recompute_queue (for_each q eval_kpi s).2)
   <= length (recompute_queue s) + length q)%nat.
Proof.
  revert s. induction q as [|k q IH]; intros s; simpl; [lia|].
  unfold mbind, M_bind.
  pose proof (eval_kpi_queue k s) as Hk.
  destruct (eval_kpi k s) as [[[]|e] s1]; simpl in *.
  - specialize (IH s1). lia.
  - lia.
Qed.

Lemma loop_enough_fuel fuel : forall q p s,
  recompute_queue s = [] ->
  (Nat.max 1 (length q) <= fuel)%nat ->
  exists out s', loop fuel q p s = Some (out, s')
    /\ forall n, out = Ok n -> (p < n <= p + Nat.max 1 (length q))%nat.
Proof.
  induction fuel as [|fuel IH]; intros q p s Hs Hfuel; [lia|].
  simpl. pose proof (pass_queue q s) as Hlen. rewrite Hs in Hlen.
  destruct (for_each q eval_kpi s) as [[[]|e] s1]; simpl in Hlen.
  - destruct (Nat.eqb_spec (length (recompute_queue s1)) 0) as [He|Hne].
    { eexists _, _. split; [reflexivity|]. intros n [= <-]. lia. }
    destruct (Nat.eqb_spec (length (recompute_queue s1)) (length q))
      as [He'|Hne'].
    { eexists _, _. split; [reflexivity|]. intros n [= <-]. lia. }
    destruct (IH (recompute_queue s1) (S p) (set_recompute_queue [] s1))
      as (out & s' & Hloop & Hn); [reflexivity | lia |].
    exists out, s'. split; [exact Hloop|].
    intros m Hm. specialize (Hn m Hm). lia.
  - eexists _, _. split; [reflexivity|]. intros n [=].
Qed.

(** C1, as the code has it: the loop of [_compute] ends, after at least
    one pass and at most max(N, 1) passes for a template of N KPIs (an
    empty template takes one pass over an empty queue); a pass ends the
    loop when the retry queue is empty or as long as the queue just
    processed, and otherwise the loop goes on with the retry queue,
    which is strictly shorter. *)
Theorem fixpoint_loop_terminates :
  let N := length (r_kpi_ids self) in
  (exists out s,
      loop (S N) (r_kpi_ids self) 0
           (initial_state E self dates period_id) = Some (out, s)
      /\ _compute E self lang_id dates target period_id sub_compute = (out, s)
      /\ forall n, out = Ok n -> (1 <= n <= Nat.max 1 N)%nat)
  /\ (forall fuel q p s,
        recompute_queue s = [] ->
        match for_each q eval_kpi s with
        | (Raise e, s') => loop (S fuel) q p s = Some (Raise e, s')
        | (Ok _, s') =>
            let retry := recompute_queue s' in
            (length retry = 0%nat ->
             loop (S fuel) q p s = Some (Ok (S p), s'))
            /\ (length retry = length q ->
                loop (S fuel) q p s = Some (Ok (S p), s'))
            /\ (length retry <> 0%nat -> length retry <> length q ->
                loop (S fuel) q p s
                = loop fuel retry (S p) (set_recompute_queue [] s')
                /\ (length retry < length q)%nat)
        end).
Proof.
  intros N. split.
  - destruct (loop_enough_fuel (S N) (r_kpi_ids self) 0
                (initial_state E self dates period_id))
      as (out & s & Hloop & Hn); [reflexivity | subst N; lia |].
    exists out, s. split; [exact Hloop|]. split.
    + unfold _compute. fold N. rewrite Hloop. reflexivity.
    + intros n Hout. specialize (Hn n Hout). subst N. lia.
  - intros fuel q p s Hs. simpl.
    pose proof (pass_queue q s) as Hlen. rewrite Hs in Hlen.
    destruct (for_each q eval_kpi s) as [[[]|e] s1]; [|reflexivity].
    simpl in *. split; [|split].
    + intros ->. reflexivity.
    + intros ->. rewrite Nat.eqb_refl. destruct (_ =? 0)%nat; reflexivity.
    + intros Hne Hne'. split; [|lia].
      destruct (Nat.eqb_spec (length (recompute_queue s1)) 0); [lia|].
      destruct (Nat.eqb_spec (length (recompute_queue s1)) (length q));
        [lia | reflexivity].
Qed.

(** ** The evaluator: the result records *)

Abbreviation produced := (produced_by E self dates target period_id sub_compute).
Abbreviation res_produced := (res_produced E self dates target period_id sub_compute).

(** The loop body either raises (from [render]) and leaves the results
    alone, or stores one record, built from the outcome of [try:]. *)
Lemma eval_kpi_res kpi s :
  (exists e, (eval_kpi kpi s).1 = Raise e /\ res (eval_kpi kpi s).2 = res s)
  \/ (exists r, (eval_kpi kpi s).1 = Ok tt
                /\ res (eval_kpi kpi s).2 = <[k_name kpi := r]> (res s)
                /\ produced kpi s r).
Proof.
  unfold MisReport.eval_kpi, produced_by.
  pose proof (try_block_frame kpi (set_inherit_active_subreport_ids [] s))
    as [_ Hres].
  destruct (try_block kpi _) as [[v|e] s1]; simpl in Hres |- *.
  - destruct (MisReportKpi.render E kpi lang_id v) as [str|e'].
    + right. eexists. simpl. rewrite Hres. repeat split; reflexivity.
    + left. exists e'. simpl. split; [reflexivity | exact Hres].
  - right. destruct (exc_cls e); eexists; simpl; rewrite Hres;
      repeat split; reflexivity.
Qed.

Lemma eval_kpi_res_produced kpi s :
  res_produced s -> res_produced (eval_kpi kpi s).2.
Proof.
  intros Hs name r.
  destruct (eval_kpi_res kpi s) as [(e & _ & ->)|(r' & _ & -> & Hr')].
  - apply Hs.
  - destruct (decide (k_name kpi = name)) as [<-|Hne].
    + rewrite lookup_insert_eq. intros [= <-]. exists kpi, s. auto.
    + rewrite lookup_insert_ne by exact Hne. apply Hs.
Qed.

Lemma pass_res_produced q s :
  res_produced s -> res_produced (for_each q eval_kpi s).2.
Proof.
  revert s. induction q as [|k q IH]; intros s Hs; simpl; [exact Hs|].
  unfold mbind, M_bind.
  pose proof (eval_kpi_res_produced k s Hs) as Hk.
  destruct (eval_kpi k s) as [[[]|e] s1]; simpl in *; [apply IH|]; exact Hk.
Qed.

Lemma loop_res_produced fuel : forall q p s out s',
  res_produced s -> loop fuel q p s = Some (out, s') -> res_produced s'.
Proof.
  induction fuel as [|fuel IH]; intros q p s out s' Hs; simpl; [discriminate|].
  pose proof (pass_res_produced q s Hs) as Hp.
  destruct (for_each q eval_kpi s) as [[[]|e] s1]; simpl in Hp.
  - destruct (_ =? 0)%nat; [intros [= <- <-]; exact Hp|].
    destruct (_ =? _)%nat; [intros [= <- <-]; exact Hp|].
    apply IH. exact Hp.
  - intros [= <- <-]. exact Hp.
Qed.

Lemma compute_res_produced :
  res_produced (_compute E self lang_id dates target period_id sub_compute).2.
Proof.
  unfold _compute.
  destruct (loop _ _ _ _) as [[out s]|] eqn:Hloop.
  - eapply loop_res_produced; [|exact Hloop]. intros name r. simpl.
    rewrite lookup_empty. discriminate.
  - intros name r. simpl. rewrite lookup_empty. discriminate.
Qed.

(** C10: the ['val'] of a record of the results is never the sentinel
    [AccountingNone]: it is [None] when the evaluation of the KPI gave
    the sentinel or raised, and the value computed otherwise. *)
Theorem val_never_sentinel name r :
  res (_compute E self lang_id dates target period_id sub_compute).2 !! name
    = Some r ->
  val r <> VAccountingNone
  /\ exists kpi s0,
       k_name kpi = name
       /\ match (try_block kpi (set_inherit_active_subreport_ids [] s0)).1 with
          | Ok v => val r = if is_AccountingNone v then VNone else v
          | Raise _ => val r = VNone
          end.
Proof.
  intros Hr.
  destruct (compute_res_produced name r Hr) as (kpi & s0 & Hname & Hval & _).
  split.
  - rewrite Hval. destruct (match _ with Ok v => v | Raise _ => VNone end);
      simpl; discriminate.
  - exists kpi, s0. split; [exact Hname|].
    destruct (try_block kpi _) as [[v|e] s1]; simpl in *; exact Hval.
Qed.

(** C6: the drilldown flag of a record of the results is false when the
    KPI recorded a sub-report and false when its expression has no
    account reference; it can only be true for an expression with an
    account reference and no sub-report. *)
Theorem drilldown_eligibility name r :
  res (_compute E self lang_id dates target period_id sub_compute).2 !! name
    = Some r ->
  (sub_report_ids r <> [] -> drilldown r = false)
  /\ (aep_has_account_var E (expr r) = false -> drilldown r = false)
  /\ (drilldown r = true ->
      sub_report_ids r = [] /\ aep_has_account_var E (expr r) = true).
Proof.
  intros Hr.
  destruct (compute_res_produced name r Hr)
    as (kpi & s0 & _ & _ & Hexpr & _ & Hsub & Hdrill).
  rewrite Hexpr, Hsub, Hdrill.
  destruct (inherit_active_subreport_ids _) as [|r0 l]; simpl.
  - destruct (negb _), (aep_has_account_var E (k_expression kpi));
      simpl; repeat split; congruence.
  - repeat split; congruence.
Qed.

(** C2: what the handlers of the loop body do with an exception of the
    body of [try:].  A [ZeroDivisionError] gives the value [None] and the
    marker [#DIV/0], and the retry queue is left as it was; a [NameError]
    or a [ValueError] gives [#ERR] and adds the KPI to the retry queue;
    any other exception gives [#ERR] and leaves the retry queue as it
    was.  In the three cases the traceback is appended to the comment. *)
Theorem error_policy kpi s e s1 :
  try_block kpi (set_inherit_active_subreport_ids [] s) = (Raise e, s1) ->
  exists s2 r,
    eval_kpi kpi s = (Ok tt, s2)
    /\ res s2 !! k_name kpi = Some r
    /\ val r = VNone
    /\ val_c r = (k_name kpi +:+ " = " +:+ k_expression kpi)
                 +:+ NL2 +:+ exc_msg e
    /\ match exc_cls e with
       | ZeroDivisionError =>
           val_r r = "#DIV/0" /\ recompute_queue s2 = recompute_queue s
       | NameError | ValueError =>
           val_r r = "#ERR"
           /\ recompute_queue s2 = union_kpi (recompute_queue s) kpi
           /\ existsb (fun k => k_id k =? k_id kpi) (recompute_queue s2) = true
       | _ =>
           val_r r = "#ERR" /\ recompute_queue s2 = recompute_queue s
       end.
Proof.
  intros Htry. unfold MisReport.eval_kpi.
  pose proof (try_block_frame kpi (set_inherit_active_subreport_ids [] s))
    as [Hq _].
  rewrite Htry in Hq |- *. simpl in Hq.
  assert (Hin : existsb (fun k => k_id k =? k_id kpi)
                  (union_kpi (recompute_queue s) kpi) = true).
  { unfold union_kpi.
    destruct (existsb _ (recompute_queue s)) eqn:Hex; [exact Hex|].
    rewrite existsb_app. simpl. rewrite Z.eqb_refl.
    apply orb_true_iff. right. reflexivity. }
  destruct (exc_cls e); eexists _, _;
    (split; [reflexivity|]);
    cbn [res set_res set_recompute_queue recompute_queue];
    rewrite lookup_insert_eq;
    (split; [reflexivity|]);
    cbn [val val_c val_r]; rewrite ?Hq; repeat split; exact Hin.
Qed.

End Evaluator.

(** The bound of C1 applied to the template [a = b + 1], [b = 2]. *)
Lemma fixpoint_loop_terminates_witness :
  exists out s,
    MisReport._compute (Examples.example_env [Examples.forward_report] [])
      Examples.forward_report 1 Examples.day_dates Posted (Some 7)
      Examples.no_sub_report = (out, s)
    /\ forall n, out = Ok n -> (1 <= n <= 2)%nat.
Proof.
  destruct (proj1 (fixpoint_loop_terminates
                     (Examples.example_env [Examples.forward_report] [])
                     Examples.forward_report 1 Examples.day_dates Posted
                     (Some 7) Examples.no_sub_report))
    as (out & s & _ & Hc & Hn).
  exists out, s. split; [exact Hc | exact Hn].
Defined.

(** C1 as stated fails on a template without KPIs: the loop makes one pass
    (over an empty queue), more than the number of KPIs. *)
Lemma empty_template_one_pass :
  exists s,
    MisReport._compute (Examples.example_env [] [])
      (Examples.mk_report 1 "empty" []) 1 Examples.day_dates Posted (Some 7)
      Examples.no_sub_report = (Ok 1%nat, s)
    /\ ~ (1 <= length (r_kpi_ids (Examples.mk_report 1 "empty" [])))%nat.
Proof.
  eexists. split; [vm_compute; reflexivity | simpl; lia].
Qed.

(** The records of the template [a = b + 1], [b = 2]. *)
Lemma val_never_sentinel_witness :
  exists r, MisReport.res Examples.forward_run.2 !! "a" = Some r
            /\ val r <> VAccountingNone.
Proof.
  assert (H : exists r, MisReport.res Examples.forward_run.2 !! "a" = Some r)
    by (vm_compute; eexists; reflexivity).
  destruct H as [r H]. exists r. split; [exact H|].
  exact (proj1 (val_never_sentinel _ _ _ _ _ _ _ "a" r H)).
Defined.

Lemma drilldown_eligibility_witness :
  exists r, MisReport.res Examples.forward_run.2 !! "b" = Some r
            /\ (drilldown r = true -> sub_report_ids r = []).
Proof.
  assert (H : exists r, MisReport.res Examples.forward_run.2 !! "b" = Some r)
    by (vm_compute; eexists; reflexivity).
  destruct H as [r H]. exists r. split; [exact H|].
  intros Hd.
  exact (proj1 (proj2 (proj2 (drilldown_eligibility _ _ _ _ _ _ _ "b" r H)) Hd)).
Defined.

(** The handlers on the division by zero of [margin_pct]. *)
Lemma error_policy_witness :
  exists s2 r,
    MisReport.eval_kpi (Examples.example_env [Examples.margin_report] [])
      Examples.margin_report 1 Examples.day_dates Posted (Some 7)
      Examples.no_sub_report Examples.kpi_margin Examples.margin_state
    = (Ok tt, s2)
    /\ MisReport.res s2 !! "margin_pct" = Some r
    /\ val r = VNone
    /\ val_r r = "#DIV/0"
    /\ MisReport.recompute_queue s2 = [].
Proof.
  destruct (MisReport.try_block
              (Examples.example_env [Examples.margin_report] [])
              Examples.margin_report Examples.day_dates Posted (Some 7)
              Examples.no_sub_report Examples.kpi_margin
              (MisReport.set_inherit_active_subreport_ids []
                 Examples.margin_state)) as [[v|e] s1] eqn:Htry.
  - exfalso. vm_compute in Htry. discriminate Htry.
  - assert (Hcls : exc_cls e = ZeroDivisionError).
    { vm_compute in Htry. injection Htry as <- _. reflexivity. }
    destruct (error_policy _ _ 1 _ _ _ _ _ _ _ _ Htry)
      as (s2 & r & Hrun & Hres & Hval & _ & Hcase).
    rewrite Hcls in Hcase. destruct Hcase as [Hr Hq].
    exists s2, r. repeat split; assumption.
Defined.

(** C5: the template [a = b + 1], [b = 2], in this order.  On the first
    pass the evaluation of [a] raises a [NameError], [a] gets the marker
    [#ERR] and enters the retry queue, and [b] is bound to 2; the second
    pass, over [a] alone, gives 3 and empties the retry queue; the loop
    ends after these two passes with both KPIs resolved. *)
Theorem forward_reference_two_passes :
  let E := Examples.example_env [Examples.forward_report] [] in
  let s0 := MisReport.initial_state E Examples.forward_report
              Examples.day_dates (Some 7) in
  let body := MisReport.eval_kpi E Examples.forward_report 1
                Examples.day_dates Posted (Some 7) Examples.no_sub_report in
  let s1 := (MisReport.for_each [Examples.kpi_a; Examples.kpi_b] body s0).2 in
  let s2 := (MisReport.for_each [Examples.kpi_a] body
               (MisReport.set_recompute_queue [] s1)).2 in
  (MisReport.try_block E Examples.forward_report Examples.day_dates Posted
     (Some 7) Examples.no_sub_report Examples.kpi_a
     (MisReport.set_inherit_active_subreport_ids [] s0)).1
  = Raise (PyEval.name_error "b")
  /\ MisReport.recompute_queue s1 = [Examples.kpi_a]
  /\ val_r <$> MisReport.res s1 !! "a" = Some "#ERR"
  /\ MisReport.localdict s1 !! "b" = Some (VInt 2)
  /\ val <$> MisReport.res s1 !! "b" = Some (VInt 2)
  /\ MisReport.recompute_queue s2 = []
  /\ Examples.forward_run = (Ok 2%nat, s2)
  /\ val <$> MisReport.res s2 !! "a" = Some (VInt 3)
  /\ val_r <$> MisReport.res s2 !! "a"
     = Some (MisReportKpi.NARROW_NO_BREAK_SPACE +:+ "3"
             +:+ MisReportKpi.NO_BREAK_SPACE)
  /\ val <$> MisReport.res s2 !! "b" = Some (VInt 2)
  /\ val_r <$> MisReport.res s2 !! "b"
     = Some (MisReportKpi.NARROW_NO_BREAK_SPACE +:+ "2"
             +:+ MisReportKpi.NO_BREAK_SPACE).
Proof.
  vm_compute. repeat split.
Qed.

(** ** The period resolver *)

Lemma timedelta_ok n :
  - Date.MAX_DELTA_DAYS <= n <= Date.MAX_DELTA_DAYS -> Date.timedelta n = Ok n.
Proof.
  intros [H1 H2]. unfold Date.timedelta.
  destruct (Z.leb_spec (- Date.MAX_DELTA_DAYS) n); [|lia].
  destruct (Z.leb_spec n Date.MAX_DELTA_DAYS); [reflexivity|lia].
Qed.

Lemma date_add_ok d n :
  Date.MINORD <= d + n <= Date.MAXORD -> Date.add d n = Ok (d + n).
Proof.
  intros [H1 H2]. unfold Date.add, Date.in_range.
  destruct (Z.leb_spec Date.MINORD (d + n)); [|lia].
  destruct (Z.leb_spec (d + n) Date.MAXORD); [reflexivity|lia].
Qed.

Lemma weekday_range d : 0 <= Date.weekday d < 7.
Proof. unfold Date.weekday. apply Z.mod_pos_bound. lia. Qed.

Lemma weekday_monday d : Date.weekday (d - Date.weekday d) = 0.
Proof.
  unfold Date.weekday.
  replace (d - (d + 6) mod 7 + 6) with ((d + 6) - (d + 6) mod 7) by lia.
  rewrite Zminus_mod, Zmod_mod, Z.sub_diag. reflexivity.
Qed.

Lemma weekday_shift d k : Date.weekday (d + 7 * k) = Date.weekday d.
Proof.
  unfold Date.weekday.
  replace (d + 7 * k + 6) with (d + 6 + k * 7) by lia.
  apply Z_mod_plus_full.
Qed.

(** C8: the dates of a day period and of a week period, when they are
    dates of the calendar (years 1 to 9999) and the shifts are within the
    range of [timedelta].  For a day period [date_from] is the pivot plus
    [offset] days and [date_to] is [duration - 1] days later; for a week
    period [date_from] is the Monday of the week of the pivot, shifted by
    [offset] weeks, and [date_to] is [7 * duration - 1] days later. *)
Theorem day_and_week_dates table company pivot self :
  let offset := ip_offset self in
  let duration := ip_duration self in
  let monday := pivot - Date.weekday pivot in
  (ip_type self = PDay ->
   - Date.MAX_DELTA_DAYS <= offset <= Date.MAX_DELTA_DAYS ->
   - Date.MAX_DELTA_DAYS <= duration - 1 <= Date.MAX_DELTA_DAYS ->
   Date.MINORD <= pivot + offset <= Date.MAXORD ->
   Date.MINORD <= pivot + offset + (duration - 1) <= Date.MAXORD ->
   MisReportInstancePeriod._compute_dates table company pivot self
   = Ok {| date_from := Some (pivot + offset);
           date_to := Some (pivot + offset + (duration - 1));
           period_from := None; period_to := None; valid := true |})
  /\ (ip_type self = PWeek ->
      Date.MINORD <= monday <= Date.MAXORD ->
      - Date.MAX_DELTA_DAYS <= offset * 7 <= Date.MAX_DELTA_DAYS ->
      - Date.MAX_DELTA_DAYS <= 7 * duration - 1 <= Date.MAX_DELTA_DAYS ->
      Date.MINORD <= monday + offset * 7 <= Date.MAXORD ->
      Date.MINORD <= monday + offset * 7 + (7 * duration - 1) <= Date.MAXORD ->
      MisReportInstancePeriod._compute_dates table company pivot self
      = Ok {| date_from := Some (monday + offset * 7);
              date_to := Some (monday + offset * 7 + (7 * duration - 1));
              period_from := None; period_to := None; valid := true |}
      /\ Date.weekday monday = 0
      /\ monday <= pivot < monday + 7
      /\ Date.weekday (monday + offset * 7) = 0).
Proof.
  intros offset duration monday. split.
  - intros Ht Ho Hd Hf Hto. unfold MisReportInstancePeriod._compute_dates.
    rewrite Ht. fold offset duration.
    rewrite (timedelta_ok offset Ho). simpl.
    rewrite (date_add_ok pivot offset Hf). simpl.
    rewrite (timedelta_ok (duration - 1) Hd). simpl.
    rewrite (date_add_ok _ _ Hto). reflexivity.
  - intros Ht Hm Ho Hd Hf Hto. unfold MisReportInstancePeriod._compute_dates.
    rewrite Ht. fold offset duration.
    pose proof (weekday_range pivot) as Hw.
    rewrite (timedelta_ok (Date.weekday pivot))
      by (unfold Date.MAX_DELTA_DAYS; lia).
    simpl. unfold Date.sub.
    rewrite (date_add_ok pivot (- Date.weekday pivot))
      by (fold monday in Hm |- *; unfold monday in *; lia).
    simpl. rewrite (timedelta_ok (offset * 7) Ho). simpl.
    replace (pivot + - Date.weekday pivot) with monday by (unfold monday; lia).
    rewrite (date_add_ok monday (offset * 7) Hf). simpl.
    rewrite (timedelta_ok (7 * duration - 1) Hd). simpl.
    rewrite (date_add_ok _ _ Hto). split; [reflexivity|].
    split; [apply weekday_monday|]. split; [unfold monday; lia|].
    replace (offset * 7) with (7 * offset) by lia.
    rewrite weekday_shift. apply weekday_monday.
Qed.

(** The examples of C8: a day period with pivot 2024-03-15, offset -1 and
    duration 1 is the 2024-03-14; a week period with the same pivot (a
    Friday), offset 0 and duration 1 goes from Monday 2024-03-11 to Sunday
    2024-03-17. *)
Lemma day_and_week_dates_witness :
  MisReportInstancePeriod._compute_dates [] 1 (Date._ymd2ord 2024 3 15)
    (Examples.mk_period 1 "yesterday" PDay (-1) 1)
  = Ok {| date_from := Some (Date._ymd2ord 2024 3 14);
          date_to := Some (Date._ymd2ord 2024 3 14);
          period_from := None; period_to := None; valid := true |}
  /\ Date.weekday (Date._ymd2ord 2024 3 15) = 4
  /\ MisReportInstancePeriod._compute_dates [] 1 (Date._ymd2ord 2024 3 15)
       (Examples.mk_period 2 "this week" PWeek 0 1)
     = Ok {| date_from := Some (Date._ymd2ord 2024 3 11);
             date_to := Some (Date._ymd2ord 2024 3 17);
             period_from := None; period_to := None; valid := true |}.
Proof.
  split; [|split; [reflexivity|]].
  - refine (proj1 (day_and_week_dates [] 1 (Date._ymd2ord 2024 3 15)
                     (Examples.mk_period 1 "yesterday" PDay (-1) 1))
                  eq_refl _ _ _ _); vm_compute; split; discriminate.
  - refine (proj1 (proj2 (day_and_week_dates [] 1 (Date._ymd2ord 2024 3 15)
                            (Examples.mk_period 2 "this week" PWeek 0 1))
                         eq_refl _ _ _ _ _)); vm_compute; split; discriminate.
Defined.

(** ** The assembler and the invalid periods *)

Section Assembler.
Import MisReport MisReportInstance.

Context (E : env) (self : instance) (report_id : report)
        (sub_compute : report -> list event * result (list block)).

Abbreviation keep := (fun p => negb (resolved_invalid E self p)).

Lemma compute_periods_skip (self' : instance) periods :
  i_company_id self' = i_company_id self ->
  i_pivot_date self' = i_pivot_date self ->
  i_target_move self' = i_target_move self ->
  forall acc evs,
    compute_periods E self report_id sub_compute periods acc evs
    = compute_periods E self' report_id sub_compute
        (List.filter keep periods) acc evs.
Proof.
  intros Hc Hp Ht.
  assert (Hd : forall p, dates_of E self' p = dates_of E self p).
  { intros p. unfold dates_of. rewrite Hc, Hp. reflexivity. }
  assert (Hpc : forall p d, period_compute E self' report_id sub_compute p d
                            = period_compute E self report_id sub_compute p d).
  { intros p d. unfold period_compute. rewrite Ht. reflexivity. }
  induction periods as [|p periods IH]; intros acc evs; [reflexivity|].
  simpl. unfold resolved_invalid.
  destruct (dates_of E self p) as [d|e] eqn:Hdp; simpl.
  - destruct (valid d) eqn:Hv; simpl.
    + rewrite Hd, Hdp, Hv, Hpc. simpl.
      destruct (period_compute _ _ _ _ _ _) as [[n|e] s]; [apply IH|reflexivity].
    + apply IH.
  - rewrite Hd, Hdp. reflexivity.
Qed.

(** The periods with KPI values are valid periods. *)
Lemma compute_periods_keys periods : forall acc evs evs' m id,
  compute_periods E self report_id sub_compute periods acc evs = (evs', Ok m) ->
  is_Some (m !! id) ->
  is_Some (acc !! id)
  \/ exists p d, In p periods /\ ip_id p = id
                 /\ dates_of E self p = Ok d /\ valid d = true.
Proof.
  induction periods as [|p periods IH]; intros acc evs evs' m id; simpl.
  - intros [= <- <-] Hm. left. exact Hm.
  - destruct (dates_of E self p) as [d|e] eqn:Hdp; [|discriminate].
    destruct (valid d) eqn:Hv; simpl.
    + destruct (period_compute _ _ _ _ _ _) as [[n|e] s]; [|discriminate].
      intros Hrun Hm. destruct (IH _ _ _ _ _ Hrun Hm) as [Hacc|Hex].
      * destruct (decide (ip_id p = id)) as [Heq|Hne].
        -- right. exists p, d. auto.
        -- left. rewrite lookup_insert_ne in Hacc by exact Hne. exact Hacc.
      * right. destruct Hex as (p' & d' & Hin & H).
        exists p', d'. split; [right; exact Hin | exact H].
    + intros Hrun Hm. destruct (IH _ _ _ _ _ Hrun Hm) as [Hacc|Hex].
      * left. exact Hacc.
      * right. destruct Hex as (p' & d' & Hin & H).
        exists p', d'. split; [right; exact Hin | exact H].
Qed.

Lemma add_comparison_columns_ext (self' : instance) m period kv ids :
  (forall id, is_Some (m !! id) -> find_period self id = find_period self' id) ->
  forall acc,
    add_comparison_columns E self report_id ids m period kv acc
    = add_comparison_columns E self' report_id ids m period kv acc.
Proof.
  intros Hfind. induction ids as [|id ids IH]; intros [cols content];
    [reflexivity|].
  simpl. destruct (m !! id) as [cv|] eqn:Hm.
  - rewrite <- (Hfind id) by (rewrite Hm; eauto).
    destruct (find_period self id) as [cc|]; [|apply IH].
    destruct (bool_decide _); [apply IH|].
    destruct (add_comparisons _ _ _ _ _ _ _); simpl; [apply IH|reflexivity].
  - destruct (find_period self id), (find_period self' id); apply IH.
Qed.

Lemma populate_skip (self' : instance) m periods :
  i_company_id self' = i_company_id self ->
  i_pivot_date self' = i_pivot_date self ->
  (forall id, is_Some (m !! id) -> find_period self id = find_period self' id) ->
  forall acc,
    populate E self report_id periods m acc
    = populate E self' report_id (List.filter keep periods) m acc.
Proof.
  intros Hc Hp Hfind.
  assert (Hd : forall p, dates_of E self' p = dates_of E self p).
  { intros p. unfold dates_of. rewrite Hc, Hp. reflexivity. }
  induction periods as [|p periods IH]; intros [cols content]; [reflexivity|].
  simpl. unfold resolved_invalid.
  destruct (dates_of E self p) as [d|e] eqn:Hdp; simpl.
  - destruct (valid d) eqn:Hv; simpl.
    + rewrite Hd, Hdp. simpl. rewrite Hv. simpl.
      destruct (m !! ip_id p) as [kv|]; [|reflexivity].
      destruct (add_values _ _) as [content'|e]; simpl; [|reflexivity].
      rewrite <- (add_comparison_columns_ext self' m p kv _ Hfind).
      destruct (add_comparison_columns _ _ _ _ _ _ _ _) as [acc'|e]; simpl;
        [apply IH|reflexivity].
    + apply IH.
  - rewrite Hd, Hdp. reflexivity.
Qed.

Lemma find_filter_nodup (l : list instance_period) p :
  NoDup (map ip_id l) -> In p l -> keep p = true ->
  List.find (fun q => ip_id q =? ip_id p) l
  = List.find (fun q => ip_id q =? ip_id p) (List.filter keep l).
Proof.
  induction l as [|q l IH]; intros Hnd Hin Hk; [destruct Hin|].
  simpl in Hnd. apply NoDup_cons in Hnd as [Hq Hnd].
  simpl. destruct (Z.eqb_spec (ip_id q) (ip_id p)) as [Heq|Hne].
  - assert (q = p) as ->.
    { destruct Hin as [Hin|Hin]; [exact Hin|]. exfalso. apply Hq.
      rewrite Heq. apply list_elem_of_In, in_map, Hin. }
    rewrite Hk. simpl. rewrite Z.eqb_refl. reflexivity.
  - destruct Hin as [->|Hin]; [congruence|].
    destruct (keep q); simpl.
    + destruct (Z.eqb_spec (ip_id q) (ip_id p)); [congruence|].
      apply IH; assumption.
    + apply IH; assumption.
Qed.

(** The grid of an instance is the grid of the instance without its
    invalid periods. *)
Lemma assemble_without_invalid :
  NoDup (map ip_id (i_period_ids self)) ->
  assemble E self report_id sub_compute
  = assemble E (without_invalid E self) report_id sub_compute.
Proof.
  intros Hnd. unfold assemble.
  change (i_period_ids (without_invalid E self))
    with (List.filter keep (i_period_ids self)).
  rewrite <- (compute_periods_skip (without_invalid E self)) by reflexivity.
  destruct (compute_periods _ _ _ _ _ _ _) as [evs [m|e]] eqn:Hrun;
    [|reflexivity].
  destruct (layout (r_kpi_ids report_id)) as [captions content].
  rewrite <- (populate_skip (without_invalid E self)); [reflexivity..|].
  intros id Hm.
  destruct (compute_periods_keys _ _ _ _ _ _ Hrun Hm) as [Hacc|Hex].
  { rewrite lookup_empty in Hacc. destruct Hacc as [? [=]]. }
  destruct Hex as (p & d & Hin & <- & Hd & Hv).
  apply find_filter_nodup; [exact Hnd | exact Hin |].
  unfold resolved_invalid. rewrite Hd, Hv. reflexivity.
Qed.

End Assembler.

Lemma fiscal_period_out_of_range table company pivot self p :
  ip_type self = PFiscalPeriod ->
  MisReportInstancePeriod.shifted_index table company pivot (ip_offset self)
  = Some (Ok p) ->
  p < 0 \/ Z.of_nat (length (MisReportInstancePeriod.search_all table company))
            < p + ip_duration self ->
  MisReportInstancePeriod._compute_dates table company pivot self
  = Ok {| date_from := None; date_to := None;
          period_from := None; period_to := None; valid := false |}.
Proof.
  intros Ht Hp Hout. unfold MisReportInstancePeriod._compute_dates.
  rewrite Ht, Hp. simpl.
  destruct (Z.leb_spec 0 p); simpl; [|reflexivity].
  destruct (Z.leb_spec (p + ip_duration self)
              (Z.of_nat (length (MisReportInstancePeriod.search_all table company))));
    [lia | reflexivity].
Qed.

(** C9: a fiscal period whose shifted index [p] is out of the ordered list
    of ledger periods ([p < 0] or [p + duration] beyond its length) is
    invalid and has no dates; the assembler computes KPI values for valid
    periods only, and its grid is the grid of the instance without its
    invalid periods: they give no column and no value. *)
Theorem invalid_periods_skipped :
  (forall table company pivot period p,
      ip_type period = PFiscalPeriod ->
      MisReportInstancePeriod.shifted_index table company pivot
        (ip_offset period) = Some (Ok p) ->
      p < 0 \/ Z.of_nat (length (MisReportInstancePeriod.search_all table company))
                < p + ip_duration period ->
      MisReportInstancePeriod._compute_dates table company pivot period
      = Ok {| date_from := None; date_to := None;
              period_from := None; period_to := None; valid := false |})
  /\ (forall E self report_id sub_compute,
        NoDup (map ip_id (i_period_ids self)) ->
        MisReportInstance.assemble E self report_id sub_compute
        = MisReportInstance.assemble E (without_invalid E self) report_id
            sub_compute
        /\ forall evs kpi_values_by_period_ids id,
             MisReportInstance.compute_periods E self report_id sub_compute
               (i_period_ids self) ∅ [] = (evs, Ok kpi_values_by_period_ids) ->
             is_Some (kpi_values_by_period_ids !! id) ->
             exists period d,
               In period (i_period_ids self) /\ ip_id period = id
               /\ MisReportInstance.dates_of E self period = Ok d
               /\ valid d = true).
Proof.
  split; [apply fiscal_period_out_of_range|].
  intros E self report_id sub_compute Hnd. split.
  - apply assemble_without_invalid. exact Hnd.
  - intros evs m id Hrun Hm.
    destruct (compute_periods_keys _ _ _ _ _ _ _ _ _ _ Hrun Hm) as [Hacc|Hex];
      [|exact Hex].
    rewrite lookup_empty in Hacc. destruct Hacc as [? [=]].
Qed.

(** On the ledger of three periods of 2024 with pivot 2024-03-15: the
    period one month ahead has shifted index 3, out of range, and is
    invalid without dates; the grid of the instance is the grid of its
    only valid period. *)
Lemma invalid_periods_skipped_witness :
  MisReportInstancePeriod._compute_dates Examples.ledger 1
    (Date._ymd2ord 2024 3 15) Examples.fp_next
  = Ok {| date_from := None; date_to := None;
          period_from := None; period_to := None; valid := false |}
  /\ MisReportInstance.assemble
       (Examples.example_env [Examples.forward_report] Examples.ledger)
       Examples.fiscal_instance Examples.forward_report Examples.no_sub_report
     = MisReportInstance.assemble
         (Examples.example_env [Examples.forward_report] Examples.ledger)
         (with_periods Examples.fiscal_instance [Examples.fp_current])
         Examples.forward_report Examples.no_sub_report.
Proof.
  split.
  - apply (proj1 invalid_periods_skipped Examples.ledger 1
             (Date._ymd2ord 2024 3 15) Examples.fp_next 3).
    + reflexivity.
    + vm_compute. reflexivity.
    + right. vm_compute. reflexivity.
  - apply (proj2 invalid_periods_skipped
             (Examples.example_env [Examples.forward_report] Examples.ledger)
             Examples.fiscal_instance Examples.forward_report
             Examples.no_sub_report).
    apply (bool_decide_unpack _). vm_compute. reflexivity.
Defined.

(** ** Rendering of comparisons *)

Section Rounding.
Import PyNum.

Lemma Qnonzero_comp p q : (p == q)%Q -> Qnonzero p = Qnonzero q.
Proof.
  intros H. unfold Qnonzero. f_equal.
  destruct (Qeq_bool q 0) eqn:Hq.
  - apply Qeq_bool_iff. rewrite H. apply Qeq_bool_iff. exact Hq.
  - destruct (Qeq_bool p 0) eqn:Hp; [|reflexivity].
    apply Qeq_bool_iff in Hp. rewrite H in Hp.
    apply Qeq_bool_iff in Hp. congruence.
Qed.

Lemma Qnonzero_false q : Qnonzero q = false <-> (q == 0)%Q.
Proof.
  unfold Qnonzero. rewrite negb_false_iff. apply Qeq_bool_iff.
Qed.

Lemma Qnonzero_true q : Qnonzero q = true <-> ~ (q == 0)%Q.
Proof.
  unfold Qnonzero. rewrite negb_true_iff. rewrite <- Qeq_bool_iff.
  destruct (Qeq_bool q 0); split; congruence.
Qed.

Lemma Qle_bool_comp p q : (p == q)%Q -> Qle_bool 0 p = Qle_bool 0 q.
Proof.
  intros H. destruct (Qle_bool 0 q) eqn:Hq.
  - apply Qle_bool_iff. rewrite H. apply Qle_bool_iff. exact Hq.
  - destruct (Qle_bool 0 p) eqn:Hp; [|reflexivity].
    apply Qle_bool_iff in Hp. rewrite H in Hp.
    apply Qle_bool_iff in Hp. congruence.
Qed.

Lemma round_half_away_comp p q :
  (p == q)%Q -> round_half_away p = round_half_away q.
Proof.
  intros H. unfold round_half_away. rewrite (Qle_bool_comp p q H).
  destruct (Qle_bool 0 q).
  - apply Qfloor_comp. rewrite H. reflexivity.
  - f_equal. apply Qfloor_comp. rewrite H. reflexivity.
Qed.

Lemma round_dp_comp p q dp : (p == q)%Q -> round_dp p dp = round_dp q dp.
Proof.
  intros H. unfold round_dp. destruct (0 <=? dp).
  - rewrite (round_half_away_comp (p * pow10 dp) (q * pow10 dp));
      [reflexivity | rewrite H; reflexivity].
  - rewrite (round_half_away_comp (p / pow10 (- dp)) (q / pow10 (- dp)));
      [reflexivity | rewrite H; reflexivity].
Qed.

Lemma truthy_num v x : num_of v = Some x -> truthy v = Qnonzero x.
Proof.
  destruct v; simpl; intros [= <-]; [|reflexivity].
  unfold Qnonzero, Qeq_bool. simpl. rewrite Z.mul_1_r. reflexivity.
Qed.

Lemma round_num v x dp : num_of v = Some x -> round v dp = Ok (round_dp x dp).
Proof. destruct v; simpl; intros [= <-]; reflexivity. Qed.

Lemma sub_num a b x y :
  num_of a = Some x -> num_of b = Some y ->
  exists d q, sub a b = Ok d /\ num_of d = Some q /\ (q == x - y)%Q.
Proof.
  destruct a, b; simpl; intros [= <-] [= <-]; eexists _, _;
    (split; [reflexivity|]); (split; [reflexivity|]);
    try reflexivity.
  unfold float_of_int, Qminus, Qplus, Qopp, Qeq. simpl. lia.
Qed.

Lemma inject_Z_nonzero z : z <> 0 -> Qnonzero (inject_Z z) = true.
Proof.
  intros H. apply Qnonzero_true. unfold Qeq. simpl. lia.
Qed.

End Rounding.

Section Comparison.
Import PyNum MisReportKpi.

Lemma normalize_num v x av :
  num_of v = Some x -> av <> 0 ->
  (normalize v av = Ok v /\ (x == 0)%Q)
  \/ (normalize v av = Ok (VFloat (x / inject_Z av)) /\ ~ (x == 0)%Q).
Proof.
  intros Hv Hav. unfold normalize. rewrite (truthy_num v x Hv).
  destruct (Z.eqb_spec av 0) as [|_]; [contradiction|].
  destruct (Qnonzero x) eqn:Hx; simpl.
  - right. apply Qnonzero_true in Hx. split; [|exact Hx].
    destruct v; simpl in Hv; try discriminate; injection Hv as <-;
      simpl; unfold fdiv, float_of_int;
      rewrite (inject_Z_nonzero av Hav); reflexivity.
  - left. apply Qnonzero_false in Hx. split; [reflexivity | exact Hx].
Qed.

(** The value and the number of an operand after [normalize]. *)
Lemma normalize_num' v x av :
  num_of v = Some x -> av <> 0 ->
  exists nv nx, normalize v av = Ok nv /\ num_of nv = Some nx
                /\ (nx == x / inject_Z av)%Q
                /\ (Qnonzero nx = true -> nv = VFloat nx).
Proof.
  intros Hv Hav.
  destruct (normalize_num v x av Hv Hav) as [[-> Hx]|[-> Hx]].
  - exists v, x. repeat split; [exact Hv | |].
    + rewrite Hx. unfold Qdiv. rewrite Qmult_0_l. reflexivity.
    + intros H. apply Qnonzero_true in H. contradiction.
  - eexists _, _. repeat split; reflexivity.
Qed.

Lemma and_round_nonzero_num d x q q' dp :
  num_of d = Some q -> num_of x = Some q' ->
  and_round_nonzero d (Ok x) dp
  = Ok (Qnonzero q && Qnonzero (round_dp q' dp)).
Proof.
  intros Hd Hx. unfold and_round_nonzero.
  rewrite (truthy_num d q Hd). destruct (Qnonzero q); [|reflexivity].
  simpl. rewrite (round_num x q' dp Hx). reflexivity.
Qed.

Lemma rounds_to_zero_test q dp :
  rounds_to_zero q dp -> Qnonzero q && Qnonzero (round_dp q dp) = false.
Proof.
  intros [H|H].
  - apply Qnonzero_false in H. rewrite H. reflexivity.
  - apply Qnonzero_false in H. rewrite H. apply andb_false_r.
Qed.

Lemma rounds_to_zero_comp p q dp :
  (p == q)%Q -> rounds_to_zero q dp -> rounds_to_zero p dp.
Proof.
  intros H [Hq|Hq]; [left; rewrite H; exact Hq|].
  right. rewrite (round_dp_comp p q dp H). exact Hq.
Qed.

Context (E : env) (self : kpi) (lang_id : Z).

Lemma not_None_num v x : num_of v = Some x -> is_None v = false.
Proof. destruct v; simpl; intros [=]; reflexivity. Qed.

Lemma comparison_pct_empty v b av ab x y :
  k_type self = KPct ->
  num_of v = Some x -> num_of b = Some y ->
  rounds_to_zero (x - y) (k_dp self) ->
  render_comparison E self lang_id v b av ab = Ok "".
Proof.
  intros Ht Hv Hb Hz. unfold render_comparison.
  rewrite (not_None_num v x Hv), (not_None_num b y Hb), Ht.
  destruct (sub_num v b x y Hv Hb) as (d & q & -> & Hd & Hq). simpl.
  rewrite (and_round_nonzero_num d d q q _ Hd Hd). simpl.
  rewrite (rounds_to_zero_test q _ (rounds_to_zero_comp _ _ _ Hq Hz)).
  reflexivity.
Qed.

Lemma comparison_diff_empty v b av ab x y :
  k_type self = KNum -> k_compare_method self = CmpDiff ->
  num_of v = Some x -> num_of b = Some y -> av <> 0 -> ab <> 0 ->
  rounds_to_zero (x / inject_Z av - y / inject_Z ab) (k_dp self) ->
  render_comparison E self lang_id v b av ab = Ok "".
Proof.
  intros Ht Hm Hv Hb Hav Hab Hz. unfold render_comparison.
  rewrite (not_None_num v x Hv), (not_None_num b y Hb), Ht, Hm.
  destruct (normalize_num' v x av Hv Hav) as (nv & nx & -> & Hnv & Hnx & _).
  destruct (normalize_num' b y ab Hb Hab) as (nb & ny & -> & Hnb & Hny & _).
  simpl.
  destruct (sub_num nv nb nx ny Hnv Hnb) as (d & q & -> & Hd & Hq). simpl.
  rewrite (and_round_nonzero_num d d q q _ Hd Hd). simpl.
  rewrite (rounds_to_zero_test q (k_dp self)); [reflexivity|].
  apply (rounds_to_zero_comp q (x / inject_Z av - y / inject_Z ab)%Q);
    [|exact Hz].
  rewrite Hq, Hnx, Hny. reflexivity.
Qed.

Lemma comparison_rel_empty v b av ab x y :
  k_type self = KNum -> k_compare_method self = CmpPct ->
  num_of v = Some x -> num_of b = Some y -> av <> 0 -> ab <> 0 ->
  let nx := (x / inject_Z av)%Q in
  let ny := (y / inject_Z ab)%Q in
  let rel := ((nx - ny) / Qabs ny)%Q in
  rounds_to_zero ny (k_dp self)
  \/ (rel == 0)%Q \/ (round_dp (rel * 100) (k_dp self) == 0)%Q ->
  render_comparison E self lang_id v b av ab = Ok "".
Proof.
  intros Ht Hm Hv Hb Hav Hab nx ny rel Hz. unfold render_comparison.
  rewrite (not_None_num v x Hv), (not_None_num b y Hb), Ht, Hm.
  destruct (normalize_num' v x av Hv Hav) as (nv & nx' & -> & Hnv & Hnx & _).
  destruct (normalize_num' b y ab Hb Hab) as (nb & ny' & -> & Hnb & Hny & Hfl).
  simpl.
  rewrite (and_round_nonzero_num nb nb ny' ny' _ Hnb Hnb). simpl.
  destruct (Qnonzero ny') eqn:Hnz; [|reflexivity].
  destruct (Qnonzero (round_dp ny' (k_dp self))) eqn:Hrz; [|reflexivity].
  simpl. rewrite (Hfl eq_refl) in *. clear Hfl Hnb.
  destruct Hz as [Hz|Hz].
  { apply (rounds_to_zero_comp ny' ny _ Hny), rounds_to_zero_test in Hz.
    rewrite Hnz, Hrz in Hz. discriminate. }
  destruct (sub_num nv (VFloat ny') nx' ny' Hnv eq_refl)
    as (d & q & Hsub & Hd & Hq).
  assert (Hdf : d = VFloat q).
  { destruct nv; simpl in Hnv, Hsub; try discriminate;
      injection Hsub as <-; simpl in Hd; injection Hd as <-; reflexivity. }
  rewrite Hsub. subst d. simpl. unfold fdiv.
  assert (Habs : Qnonzero (Qabs ny') = true).
  { apply Qnonzero_true. intros H. apply Qnonzero_true in Hnz. apply Hnz.
    clear -H. destruct ny' as [n d]. unfold Qeq in *. simpl in *. lia. }
  rewrite Habs. simpl.
  assert (Hrel : (q / Qabs ny' == rel)%Q).
  { unfold rel, nx, ny. rewrite Hq, Hnx, Hny. reflexivity. }
  unfold and_round_nonzero. simpl.
  destruct (Qnonzero (q / Qabs ny')) eqn:Hd0; [|reflexivity].
  simpl. destruct Hz as [Hz|Hz].
  { rewrite <- Hrel in Hz. apply Qnonzero_false in Hz. congruence. }
  rewrite (round_dp_comp _ (rel * 100)%Q).
  - apply Qnonzero_false in Hz. rewrite Hz. reflexivity.
  - rewrite Hrel. reflexivity.
Qed.

Lemma normalize_numeric v x av :
  num_of v = Some x ->
  exists nv nx, normalize v av = Ok nv /\ num_of nv = Some nx.
Proof.
  intros Hv. destruct (Z.eq_dec av 0) as [->|Hav].
  - exists v, x. split; [|exact Hv]. unfold normalize.
    rewrite andb_false_r. reflexivity.
  - destruct (normalize_num' v x av Hv Hav) as (nv & nx & H1 & H2 & _).
    exists nv, nx. split; assumption.
Qed.

Lemma sub_absent_r v x : num_of v = Some x -> sub v VAccountingNone = Ok VAccountingNone.
Proof. destruct v; simpl; intros [=]; reflexivity. Qed.

Lemma comparison_absent_empty v b av ab x :
  absent v = true /\ num_of b = Some x
  \/ num_of v = Some x /\ absent b = true ->
  render_comparison E self lang_id v b av ab = Ok "".
Proof.
  unfold render_comparison.
  intros [[Hv Hb]|[Hv Hb]].
  - rewrite (not_None_num b x Hb).
    assert (Hv' : (if is_None v then VAccountingNone else v) = VAccountingNone)
      by (unfold absent in Hv; destruct v; simpl in *; congruence).
    rewrite Hv'. destruct (k_type self); [| reflexivity | reflexivity].
    simpl.
    destruct (normalize_numeric b x ab Hb) as (nb & ny & -> & Hnb). simpl.
    destruct (k_compare_method self); [reflexivity | | reflexivity].
    rewrite (and_round_nonzero_num nb nb ny ny _ Hnb Hnb). simpl.
    destruct (_ && _); [|reflexivity].
    destruct nb; simpl in Hnb |- *; try discriminate; reflexivity.
  - rewrite (not_None_num v x Hv).
    assert (Hb' : (if is_None b then VAccountingNone else b) = VAccountingNone)
      by (unfold absent in Hb; destruct b; simpl in *; congruence).
    rewrite Hb'. destruct (k_type self); [| | reflexivity].
    + destruct (normalize_numeric v x av Hv) as (nv & nx & -> & Hnv). simpl.
      destruct (k_compare_method self); [ | reflexivity | reflexivity].
      rewrite (sub_absent_r nv nx Hnv). reflexivity.
    + rewrite (sub_absent_r v x Hv). reflexivity.
Qed.

Lemma comparison_equal_empty v av x :
  num_of v = Some x -> av <> 0 ->
  render_comparison E self lang_id v v av av = Ok "".
Proof.
  intros Hv Hav.
  destruct (k_type self) eqn:Ht.
  - destruct (k_compare_method self) eqn:Hm.
    + apply (comparison_diff_empty v v av av x x Ht Hm Hv Hv Hav Hav).
      left. ring.
    + apply (comparison_rel_empty v v av av x x Ht Hm Hv Hv Hav Hav).
      right. left. unfold Qdiv. ring.
    + unfold render_comparison. rewrite (not_None_num v x Hv), Ht, Hm.
      destruct (normalize_numeric v x av Hv) as (nv & nx & -> & _).
      reflexivity.
  - apply (comparison_pct_empty v v av av x x Ht Hv Hv). left. ring.
  - unfold render_comparison. rewrite Ht. reflexivity.
Qed.


End Comparison.



(** ** The evaluation scope *)

Section Scope.
Import MisReport.

Context (E : env) (self : report) (lang_id : Z) (dates : period_dates)
        (target : target_move) (period_id : option Z)
        (sub_compute : report -> list event * result (list block)).

Abbreviation inv := (scope_inv E self sub_compute).
Abbreviation keeps := (fun s s' : st => inv s -> inv s').

#[local] Instance keeps_refl : Reflexive keeps.
Proof. intros s H. exact H. Qed.

#[local] Instance keeps_trans : Transitive keeps.
Proof. intros s1 s2 s3 H1 H2 H. apply H2, H1, H. Qed.

Lemma keeps_insert n v :
  scope_name E self sub_compute n ->
  steps keeps (modify (set_localdict <[n := v]>)).
Proof.
  intros Hn. apply steps_modify. intros s (Hl & He & Hq).
  split; [|split; [exact He | exact Hq]].
  intros m. simpl. destruct (decide (n = m)) as [<-|Hne].
  - intros _. exact Hn.
  - rewrite lookup_insert_ne by exact Hne. apply Hl.
Qed.

Lemma keeps_same (f : st -> st) :
  (forall s, localdict (f s) = localdict s) ->
  (forall s, eval_log (f s) = eval_log s) ->
  (forall s, recompute_queue (f s) = recompute_queue s) ->
  steps keeps (modify f).
Proof.
  intros H1 H2 H3. apply steps_modify. intros s (Hl & He & Hq).
  unfold scope_inv. rewrite H1, H2, H3. auto.
Qed.

Lemma keeps_log e : steps keeps (modify (log_eval e)).
Proof.
  apply steps_modify. intros s (Hl & He & Hq).
  split; [exact Hl | split; [|exact Hq]].
  intros e' sc. simpl. rewrite in_app_iff. intros [Hin|[[= <- <-]|[]]].
  - apply (He e' sc Hin).
  - exact Hl.
Qed.

Lemma keeps_ret {A} (a : A) : steps keeps (mret a).
Proof. apply (steps_ret keeps). Qed.

Lemma keeps_lift {A} (r : result A) : steps keeps (lift r).
Proof. apply (steps_lift keeps). Qed.

Lemma keeps_gets {A} (f : st -> A) : steps keeps (gets f).
Proof. apply (steps_gets keeps). Qed.

Lemma keeps_bind {A B} (m : M A) (f : A -> M B) :
  steps keeps m -> (forall a, steps keeps (f a)) -> steps keeps (m ≫= f).
Proof. apply (steps_bind keeps). Qed.

Lemma keeps_bind_lift {A B} (r : result A) (f : A -> M B) :
  (forall a, r = Ok a -> steps keeps (f a)) -> steps keeps (lift r ≫= f).
Proof. apply (steps_bind_lift keeps). Qed.

Lemma keeps_for_each {A} (l : list A) (body : A -> M unit) :
  (forall x, In x l -> steps keeps (body x)) -> steps keeps (for_each l body).
Proof. apply (steps_for_each keeps). Qed.

Lemma keeps_bind_row r evs blocks row :
  In r (all_reports E) -> sub_compute r = (evs, Ok blocks) ->
  In row (flat_map b_content blocks) ->
  steps keeps (bind_row period_id (r_code r) row).
Proof.
  intros Hr Hsub Hrow. unfold bind_row. apply keeps_bind.
  - apply keeps_same; reflexivity.
  - intros _. destruct (row_kpi_unique_name row) as [kn|] eqn:Hkn.
    + apply keeps_insert. right. right. right.
      exists r, evs, blocks, row, kn. auto.
    + apply keeps_lift.
Qed.

Lemma singleton_search code r :
  singleton (search_code E code) = Ok r -> In r (all_reports E).
Proof.
  unfold singleton. destruct (search_code E code) as [|r0 [|]] eqn:Hs;
    try discriminate.
  intros [= <-].
  assert (Hin : In r0 (search_code E code)) by (rewrite Hs; left; reflexivity).
  unfold search_code in Hin. apply filter_In in Hin. apply Hin.
Qed.

Lemma keeps_sub_report_search e :
  steps keeps (sub_report_search E period_id sub_compute e).
Proof.
  unfold sub_report_search.
  destruct (negb (Re.contains_dot e)); [apply keeps_ret|].
  apply keeps_bind_lift. intros [report_code kn] _.
  destruct (_ && _); [|apply keeps_ret].
  apply keeps_bind; [apply keeps_same; reflexivity|]. intros _.
  apply keeps_bind; [apply keeps_same; reflexivity|]. intros _.
  apply keeps_bind_lift. intros r Hr. apply singleton_search in Hr.
  apply keeps_bind; [apply keeps_gets|]. intros memo.
  destruct (memo_missing memo (r_code r)); [|apply keeps_ret].
  apply keeps_bind; [apply keeps_same; reflexivity|]. intros _.
  destruct (sub_compute r) as [evs out] eqn:Hsub.
  apply keeps_bind; [apply keeps_same; reflexivity|]. intros _.
  apply keeps_bind_lift. intros blocks ->.
  apply keeps_for_each. intros row Hrow.
  apply (keeps_bind_row r evs blocks row Hr Hsub Hrow).
Qed.

Lemma keeps_try_block kpi :
  In kpi (r_kpi_ids self) ->
  steps keeps (try_block E self dates target period_id sub_compute kpi).
Proof.
  intros Hk. unfold try_block.
  apply keeps_bind; [apply keeps_same; reflexivity|]. intros _.
  apply keeps_bind.
  { destruct (Re.contains_dot _); [|apply keeps_ret].
    apply keeps_bind; [apply keeps_gets|]. intros e.
    apply keeps_for_each. intros x _. apply keeps_sub_report_search. }
  intros _. apply keeps_bind; [apply keeps_gets|]. intros e.
  apply keeps_bind; [apply keeps_log|]. intros _.
  apply keeps_bind; [apply keeps_gets|]. intros scope.
  apply keeps_bind; [apply keeps_lift|]. intros v.
  apply keeps_bind; [|intros _; apply keeps_ret].
  apply keeps_insert. right. right. left. exists kpi. auto.
Qed.

Lemma union_kpi_in q k k' : In k' (union_kpi q k) -> In k' q \/ k' = k.
Proof.
  unfold union_kpi. destruct (existsb _ q); [auto|].
  rewrite in_app_iff. simpl. intuition.
Qed.

Lemma eval_kpi_keeps kpi s :
  In kpi (r_kpi_ids self) -> inv s ->
  inv (eval_kpi E self lang_id dates target period_id sub_compute kpi s).2.
Proof.
  intros Hk Hs. unfold eval_kpi.
  assert (Hs0 : inv (set_inherit_active_subreport_ids [] s)) by exact Hs.
  pose proof (keeps_try_block kpi Hk _ Hs0) as Hs1.
  destruct (try_block _ _ _ _ _ _ kpi _) as [[v|e] s1]; simpl in Hs1.
  - destruct (MisReportKpi.render E kpi lang_id v); exact Hs1.
  - destruct Hs1 as (Hl & He & Hq).
    assert (Hs2 : inv (set_recompute_queue
                         (union_kpi (recompute_queue s1) kpi) s1)).
    { split; [exact Hl | split; [exact He|]]. simpl. intros k Hin.
      apply union_kpi_in in Hin as [Hin| ->]; [apply Hq, Hin | exact Hk]. }
    destruct (exc_cls e); first [exact Hs2 | exact (conj Hl (conj He Hq))].
Qed.

Lemma pass_keeps q s :
  (forall k, In k q -> In k (r_kpi_ids self)) -> inv s ->
  inv (for_each q
         (eval_kpi E self lang_id dates target period_id sub_compute) s).2.
Proof.
  revert s. induction q as [|k q IH]; intros s Hq Hs; simpl; [exact Hs|].
  unfold mbind, M_bind.
  pose proof (eval_kpi_keeps k s (Hq k (or_introl eq_refl)) Hs) as Hk.
  destruct (eval_kpi _ _ _ _ _ _ _ k s) as [[[]|e] s1]; simpl in *;
    [|exact Hk].
  apply IH; [|exact Hk]. intros k' Hin. apply Hq. right. exact Hin.
Qed.

Lemma loop_keeps fuel : forall q p s out s',
  (forall k, In k q -> In k (r_kpi_ids self)) -> inv s ->
  loop E self lang_id dates target period_id sub_compute fuel q p s
  = Some (out, s') ->
  inv s'.
Proof.
  induction fuel as [|fuel IH]; intros q p s out s' Hq Hs; simpl;
    [discriminate|].
  pose proof (pass_keeps q s Hq Hs) as Hp.
  destruct (for_each q _ s) as [[[]|e] s1]; simpl in Hp.
  - destruct (_ =? 0)%nat; [intros [= <- <-]; exact Hp|].
    destruct (_ =? _)%nat; [intros [= <- <-]; exact Hp|].
    apply IH; [apply Hp|]. destruct Hp as (Hl & He & _).
    split; [exact Hl | split; [exact He|]]. intros k [].
  - intros [= <- <-]. exact Hp.
Qed.

Lemma fetch_queries_keys qs df dt : forall (acc : gmap string value) n,
  is_Some (fold_left (fun res q => <[q_name q := run_query E q df dt]> res)
                     qs acc !! n) ->
  is_Some (acc !! n) \/ exists q, In q qs /\ q_name q = n.
Proof.
  induction qs as [|q qs IH]; intros acc n; simpl; [auto|].
  intros H. apply IH in H as [H|(q' & Hin & Hn)].
  - destruct (decide (q_name q = n)) as [Heq|Hne].
    + right. exists q. auto.
    + rewrite lookup_insert_ne in H by exact Hne. auto.
  - right. exists q'. auto.
Qed.

Lemma initial_localdict_keys n :
  is_Some (initial_localdict !! n) -> In n seeded_names.
Proof.
  unfold initial_localdict, seeded_names.
  repeat (rewrite lookup_insert; case_decide;
          [subst n; intros _; simpl; auto 10|]).
  rewrite lookup_empty. intros [? [=]].
Qed.

Lemma initial_state_inv : inv (initial_state E self dates period_id).
Proof.
  split; [|split].
  - intros n. simpl. intros H.
    apply lookup_union_is_Some in H as [H|H].
    + apply fetch_queries_keys in H as [H|H].
      * rewrite lookup_empty in H. destruct H as [? [=]].
      * right. left. exact H.
    + left. apply initial_localdict_keys, H.
  - intros e sc [].
  - intros k [].
Qed.


End Scope.

(** The scope of the first evaluation of the template [a = b + 1],
    [b = 2]. *)
Lemma first_scope :
  exists e scope l,
    MisReport.eval_log Examples.forward_run.2 = (e, scope) :: l
    /\ scope !! "registry" = Some (VObj Registry)
    /\ scope !! "len" = Some (VObj (Builtin "len"))
    /\ scope !! "AccountingNone" = Some VAccountingNone.
Proof.
  destruct (MisReport.eval_log Examples.forward_run.2) as [|[e sc] l] eqn:Hlog.
  - vm_compute in Hlog. discriminate Hlog.
  - exists e, sc, l. split; [reflexivity|].
    vm_compute in Hlog. injection Hlog as _ <- _.
    vm_compute. repeat split.
Qed.



(** ** Cross-report references *)

Section Dotted.
Import Re.

Lemma span_word_dot w t :
  all_word w -> span is_word (w +:+ String "."%char t) = (w, String "."%char t).
Proof.
  induction w as [|c w IH]; intros Hw; simpl; [reflexivity|].
  rewrite (Hw c) by (left; reflexivity).
  rewrite IH; [reflexivity|]. intros c' Hc'. apply Hw. right. exact Hc'.
Qed.

(** No match of the pattern starts in [w.a] when [a] is a single
    character: the second group needs two. *)
Lemma match_dotted_one_char w a :
  all_word w ->
  match_dotted (w +:+ String "."%char (String a EmptyString)) = None.
Proof.
  intros Hw. unfold match_dotted, ident2.
  destruct w as [|c w]; simpl; [reflexivity|].
  destruct (is_alpha c); [|reflexivity].
  rewrite span_word_dot
    by (intros c' Hc'; apply Hw; right; exact Hc').
  destruct w; simpl; [reflexivity|].
  destruct (is_alpha a); reflexivity.
Qed.

Lemma sub_dotted_one_char w a :
  all_word w ->
  sub_dotted (w +:+ String "."%char (String a EmptyString))
  = w +:+ String "."%char (String a EmptyString).
Proof.
  unfold sub_dotted. induction w as [|c w IH]; intros Hw.
  - simpl. unfold match_dotted, ident2. simpl.
    destruct (is_alpha a); reflexivity.
  - change (String c w +:+ String "."%char (String a EmptyString))
      with (String c (w +:+ String "."%char (String a EmptyString))).
    cbn [sub_dotted_from].
    change (String c (w +:+ String "."%char (String a EmptyString)))
      with (String c w +:+ String "."%char (String a EmptyString)).
    rewrite (match_dotted_one_char (String c w) a Hw).
    rewrite IH; [reflexivity|]. intros c' Hc'. apply Hw. right. exact Hc'.
Qed.

End Dotted.

(** C7 on a reference to a KPI with a one-character name.  The report
    [top] has the KPIs [k1 = sub.x + 1] and [k2 = sub.yy + 1]; the report
    [sub] declares [x = 2] and [yy = 5].  In the evaluation of [top] for a
    period, [sub] is evaluated once and [sub_x] and [sub_yy] are bound to
    2 and 5; the formula of [k2] is rewritten to [sub_yy + 1] and gives 6,
    but the formula of [k1] is passed unchanged to the evaluator, on both
    passes, and [k1] ends with [#ERR]. *)
Theorem one_char_reference_not_rewritten :
  let s := Examples.top_today.2 in
  Re.sub_dotted "sub.x + 1" = "sub.x + 1"
  /\ Re.sub_dotted "sub.yy + 1" = "sub_yy + 1"
  /\ Examples.top_today.1 = Ok 2%nat
  /\ map fst (MisReport.eval_log s) = ["sub.x + 1"; "sub_yy + 1"; "sub.x + 1"]
  /\ MisReport.sub_calls s = ["sub"]
  /\ MisReport.localdict s !! "sub_x" = Some (VInt 2)
  /\ MisReport.localdict s !! "sub_yy" = Some (VInt 5)
  /\ val <$> MisReport.res s !! "k2" = Some (VInt 6)
  /\ val <$> MisReport.res s !! "k1" = Some VNone
  /\ val_r <$> MisReport.res s !! "k1" = Some "#ERR"
  /\ sub_report_ids <$> MisReport.res s !! "k1" = Some [20].
Proof.
  vm_compute. repeat split.
Qed.

(** The same instance over its two periods: each evaluation of [top] for a
    period evaluates [sub] anew, for all the periods. *)
Example sub_report_evaluated_per_period :
  (MisReportInstance.compute Examples.sub_env 3 Examples.top_instance).1
  = [MisReport.EvCompute 10 (Some 1); MisReport.EvSubReport 20;
     MisReport.EvCompute 20 (Some 1); MisReport.EvCompute 20 (Some 2);
     MisReport.EvCompute 10 (Some 2); MisReport.EvSubReport 20;
     MisReport.EvCompute 20 (Some 1); MisReport.EvCompute 20 (Some 2)].
Proof. vm_compute. reflexivity. Qed.

(** * Further properties of the code *)

(** ** The period resolver: fiscal periods *)

Section FiscalPeriods.
Import MisReportInstancePeriod.

Lemma insert_by_start_In x p l :
  In x (insert_by_start p l) <-> x = p \/ In x l.
Proof.
  induction l as [|q l IH]; simpl; [intuition|].
  destruct (ap_date_start q <=? ap_date_start p); simpl; rewrite ?IH; intuition.
Qed.

Lemma order_by_start_In x l : In x (order_by_start l) <-> In x l.
Proof.
  unfold order_by_start.
  assert (H : forall acc, In x (fold_left (fun acc p => insert_by_start p acc) l acc)
                          <-> In x l \/ In x acc).
  { induction l as [|p l IH]; intros acc; simpl; [intuition|].
    rewrite IH, insert_by_start_In. intuition. }
  rewrite H. simpl. intuition.
Qed.

Lemma search_current_all table company d cur :
  In cur (search_current table company d) -> In cur (search_all table company).
Proof.
  unfold search_current, search_all. rewrite !order_by_start_In, !filter_In.
  intros [Hin Hc]. split; [exact Hin|].
  apply andb_true_iff in Hc as [Hc H4]. apply andb_true_iff in Hc as [Hc _].
  apply andb_true_iff in Hc as [H1 _]. rewrite H1, H4. reflexivity.
Qed.

Lemma list_index_found l x :
  In x l ->
  exists i, Py.list_index l x = Some i /\ 0 <= i < Z.of_nat (length l)
            /\ nth_error l (Z.to_nat i) = Some x.
Proof.
  induction l as [|y l IH]; intros Hin; [destruct Hin|].
  simpl. destruct (Z.eqb_spec y x) as [->|Hne].
  - exists 0. repeat split; lia.
  - destruct Hin as [Heq|Hin]; [contradiction|].
    destruct (IH Hin) as (i & -> & Hi & Hnth).
    exists (i + 1). split; [reflexivity|]. split; [lia|].
    replace (Z.to_nat (i + 1)) with (S (Z.to_nat i)) by lia. exact Hnth.
Qed.

(** X1: the lookup of the ledger period of the pivot date never fails:
    either no ledger period of the company contains the pivot date, or
    the shifted index is [i + offset] where [i] is the position, in the
    ordered list of the periods of the company, of a period with the
    identifier of the first period containing the pivot date. *)
Theorem shifted_index_found table company pivot offset :
  shifted_index table company pivot offset = None
  /\ search_current table company pivot = []
  \/ exists cur i,
       head (search_current table company pivot) = Some cur
       /\ shifted_index table company pivot offset = Some (Ok (i + offset))
       /\ 0 <= i < Z.of_nat (length (search_all table company))
       /\ ap_id <$> nth_error (search_all table company) (Z.to_nat i)
          = Some (ap_id cur).
Proof.
  unfold shifted_index.
  destruct (search_current table company pivot) as [|cur rest] eqn:Hcur.
  - left. split; reflexivity.
  - right.
    assert (Hin : In cur (search_all table company)).
    { apply (search_current_all table company pivot). rewrite Hcur. left.
      reflexivity. }
    destruct (list_index_found (map ap_id (search_all table company)) (ap_id cur)
                (in_map ap_id _ _ Hin)) as (i & Hi & Hrange & Hnth).
    exists cur, i. rewrite Hi. rewrite length_map in Hrange.
    split; [reflexivity|]. split; [reflexivity|]. split; [exact Hrange|].
    rewrite nth_error_map in Hnth. exact Hnth.
Qed.

Lemma slice_in_range {A} (l : list A) lo hi :
  0 <= lo -> lo <= hi -> hi <= Z.of_nat (length l) ->
  Py.slice l lo hi = firstn (Z.to_nat (hi - lo)) (skipn (Z.to_nat lo) l).
Proof.
  intros H1 H2 H3. unfold Py.slice, Py.clamp.
  destruct (Z.ltb_spec lo 0); [lia|]. destruct (Z.ltb_spec hi 0); [lia|].
  repeat match goal with
         | |- context [Z.ltb ?a ?b] => destruct (Z.ltb_spec a b); try lia
         end.
  reflexivity.
Qed.

Lemma index_first {A} (l : list A) x rest :
  l = x :: rest -> Py.index l 0 = Ok x.
Proof.
  intros ->. unfold Py.index. simpl.
  destruct (Z.ltb_spec 0 (Z.pos (Pos.of_succ_nat (length rest)))); [|lia].
  reflexivity.
Qed.

Lemma index_last {A} (l : list A) x :
  nth_error l (length l - 1) = Some x -> l <> [] -> Py.index l (-1) = Ok x.
Proof.
  intros Hnth Hne. unfold Py.index.
  assert (0 < length l)%nat by (destruct l; [congruence | simpl; lia]).
  simpl. destruct (Z.leb_spec 0 (-1 + Z.of_nat (length l))); [|lia].
  destruct (Z.ltb_spec (-1 + Z.of_nat (length l)) (Z.of_nat (length l))); [|lia].
  simpl. replace (Z.to_nat (-1 + Z.of_nat (length l))) with (length l - 1)%nat by lia.
  rewrite Hnth. reflexivity.
Qed.

(** X2: a fiscal period whose shifted index [p] is in range, with a
    positive duration, is valid: it goes from the start of the ledger
    period of index [p] to the end of the ledger period of index
    [p + duration - 1], which are its first and last ledger periods. *)
Theorem fiscal_period_in_range table company pivot self p :
  ip_type self = PFiscalPeriod ->
  shifted_index table company pivot (ip_offset self) = Some (Ok p) ->
  0 < ip_duration self ->
  0 <= p ->
  p + ip_duration self <= Z.of_nat (length (search_all table company)) ->
  exists first last,
    nth_error (search_all table company) (Z.to_nat p) = Some first
    /\ nth_error (search_all table company)
         (Z.to_nat (p + ip_duration self - 1)) = Some last
    /\ _compute_dates table company pivot self
       = Ok {| date_from := Some (ap_date_start first);
               date_to := Some (ap_date_stop last);
               period_from := Some first; period_to := Some last;
               valid := true |}.
Proof.
  intros Ht Hp Hd Hp0 Hlen. unfold _compute_dates. rewrite Ht, Hp. simpl.
  set (all := search_all table company) in *.
  destruct (Z.leb_spec 0 p); [|lia].
  destruct (Z.leb_spec (p + ip_duration self) (Z.of_nat (length all))); [|lia].
  simpl. rewrite slice_in_range by lia.
  replace (p + ip_duration self - p) with (ip_duration self) by lia.
  set (n := Z.to_nat p). set (d := Z.to_nat (ip_duration self)).
  assert (Hn : (n + d <= length all)%nat) by lia.
  assert (Hd' : (0 < d)%nat) by lia.
  destruct (nth_error all n) as [first|] eqn:Hfirst;
    [|apply nth_error_None in Hfirst; lia].
  destruct (nth_error all (n + d - 1)) as [last|] eqn:Hlast;
    [|apply nth_error_None in Hlast; lia].
  exists first, last. split; [reflexivity|]. split.
  { replace (Z.to_nat (p + ip_duration self - 1)) with (n + d - 1)%nat by lia.
    exact Hlast. }
  assert (Hlen' : length (firstn d (skipn n all)) = d).
  { rewrite length_firstn, length_skipn. lia. }
  assert (Hhead : exists rest, firstn d (skipn n all) = first :: rest).
  { destruct (firstn d (skipn n all)) as [|x rest] eqn:Hs;
      [simpl in Hlen'; lia|].
    exists rest. f_equal.
    assert (Hx : nth_error (firstn d (skipn n all)) 0 = Some first).
    { rewrite nth_error_firstn. destruct (Nat.ltb_spec 0 d); [|lia].
      rewrite nth_error_skipn, Nat.add_0_r. exact Hfirst. }
    rewrite Hs in Hx. simpl in Hx. congruence. }
  destruct Hhead as [rest Hhead].
  rewrite (index_first _ first rest Hhead). simpl.
  rewrite (index_last _ last).
  - reflexivity.
  - rewrite Hlen'. rewrite nth_error_firstn.
    destruct (Nat.ltb_spec (d - 1) d); [|lia].
    rewrite nth_error_skipn.
    replace (n + (d - 1))%nat with (n + d - 1)%nat by lia. exact Hlast.
  - rewrite Hhead. discriminate.
Qed.

End FiscalPeriods.

(** The fiscal period of March 2024 on the ledger of three periods. *)
Lemma fiscal_period_in_range_witness :
  exists first last,
    MisReportInstancePeriod._compute_dates Examples.ledger 1
      (Date._ymd2ord 2024 3 15) Examples.fp_current
    = Ok {| date_from := Some (ap_date_start first);
            date_to := Some (ap_date_stop last);
            period_from := Some first; period_to := Some last;
            valid := true |}
    /\ ap_name first = "03/2024".
Proof.
  destruct (fiscal_period_in_range Examples.ledger 1 (Date._ymd2ord 2024 3 15)
              Examples.fp_current 2)
    as (first & last & Hfirst & _ & Hrun).
  - reflexivity.
  - vm_compute. reflexivity.
  - vm_compute. reflexivity.
  - vm_compute. discriminate.
  - vm_compute. discriminate.
  - exists first, last. split; [exact Hrun|].
    vm_compute in Hfirst. injection Hfirst as <-. reflexivity.
Defined.

(** ** The period resolver: days and weeks *)

Lemma result_bind_ok {A B} (r : result A) (f : A -> result B) b :
  r ≫= f = Ok b -> exists a, r = Ok a /\ f a = Ok b.
Proof. destruct r as [a|e]; simpl; [eauto | discriminate]. Qed.

Lemma timedelta_inv n d : Date.timedelta n = Ok d -> d = n.
Proof.
  unfold Date.timedelta. destruct (_ && _); [congruence | discriminate].
Qed.

Lemma date_add_inv d n r : Date.add d n = Ok r -> r = d + n.
Proof.
  unfold Date.add. destruct (Date.in_range _); [congruence | discriminate].
Qed.

(** The dates of a resolved day period. *)
Lemma day_dates_inv table company pivot self r :
  ip_type self = PDay ->
  MisReportInstancePeriod._compute_dates table company pivot self = Ok r ->
  date_from r = Some (pivot + ip_offset self)
  /\ date_to r = Some (pivot + ip_offset self + (ip_duration self - 1)).
Proof.
  intros Ht. unfold MisReportInstancePeriod._compute_dates. rewrite Ht.
  intros H.
  apply result_bind_ok in H as (td & H1 & H). apply timedelta_inv in H1 as ->.
  apply result_bind_ok in H as (f & H2 & H). apply date_add_inv in H2 as ->.
  apply result_bind_ok in H as (td & H3 & H). apply timedelta_inv in H3 as ->.
  apply result_bind_ok in H as (t & H4 & H). apply date_add_inv in H4 as ->.
  injection H as <-. split; reflexivity.
Qed.

(** The dates of a resolved week period. *)
Lemma week_dates_inv table company pivot self r :
  ip_type self = PWeek ->
  MisReportInstancePeriod._compute_dates table company pivot self = Ok r ->
  date_from r = Some (pivot - Date.weekday pivot + ip_offset self * 7)
  /\ date_to r = Some (pivot - Date.weekday pivot + ip_offset self * 7
                      + (7 * ip_duration self - 1)).
Proof.
  intros Ht. unfold MisReportInstancePeriod._compute_dates. rewrite Ht.
  intros H.
  apply result_bind_ok in H as (td & H1 & H). apply timedelta_inv in H1 as ->.
  apply result_bind_ok in H as (f & H2 & H). unfold Date.sub in H2.
  apply date_add_inv in H2 as ->.
  apply result_bind_ok in H as (td & H3 & H). apply timedelta_inv in H3 as ->.
  apply result_bind_ok in H as (f & H4 & H). apply date_add_inv in H4 as ->.
  apply result_bind_ok in H as (td & H5 & H). apply timedelta_inv in H5 as ->.
  apply result_bind_ok in H as (t & H6 & H). apply date_add_inv in H6 as ->.
  injection H as <-. simpl. split; f_equal; lia.
Qed.

(** X3: day periods and week periods tile the calendar: when a period
    of [duration] units at [offset] and a period of the same type at
    [offset + duration] are both resolved, the second starts on the day
    after the first ends. *)
Theorem consecutive_periods_abut table company pivot p1 p2 r1 r2 :
  ip_type p1 = ip_type p2 ->
  ip_type p1 = PDay \/ ip_type p1 = PWeek ->
  ip_offset p2 = ip_offset p1 + ip_duration p1 ->
  MisReportInstancePeriod._compute_dates table company pivot p1 = Ok r1 ->
  MisReportInstancePeriod._compute_dates table company pivot p2 = Ok r2 ->
  exists last first,
    date_to r1 = Some last /\ date_from r2 = Some first /\ first = last + 1.
Proof.
  intros Hty [Ht|Ht] Hoff H1 H2.
  - destruct (day_dates_inv _ _ _ _ _ Ht H1) as [_ Hto].
    rewrite Ht in Hty. symmetry in Hty.
    destruct (day_dates_inv _ _ _ _ _ Hty H2) as [Hfrom _].
    eexists _, _. split; [exact Hto|]. split; [exact Hfrom|]. lia.
  - destruct (week_dates_inv _ _ _ _ _ Ht H1) as [_ Hto].
    rewrite Ht in Hty. symmetry in Hty.
    destruct (week_dates_inv _ _ _ _ _ Hty H2) as [Hfrom _].
    eexists _, _. split; [exact Hto|]. split; [exact Hfrom|]. lia.
Qed.

(** Last week and this week around 2024-03-15. *)
Lemma consecutive_periods_abut_witness :
  exists last first,
    last = Date._ymd2ord 2024 3 10 /\ first = Date._ymd2ord 2024 3 11
    /\ first = last + 1.
Proof.
  destruct (consecutive_periods_abut [] 1 (Date._ymd2ord 2024 3 15)
              (Examples.mk_period 1 "last week" PWeek (-1) 1)
              (Examples.mk_period 2 "this week" PWeek 0 1)
              {| date_from := Some (Date._ymd2ord 2024 3 4);
                 date_to := Some (Date._ymd2ord 2024 3 10);
                 period_from := None; period_to := None; valid := true |}
              {| date_from := Some (Date._ymd2ord 2024 3 11);
                 date_to := Some (Date._ymd2ord 2024 3 17);
                 period_from := None; period_to := None; valid := true |})
    as (last & first & Hl & Hf & Heq).
  - reflexivity.
  - right. reflexivity.
  - reflexivity.
  - vm_compute. reflexivity.
  - vm_compute. reflexivity.
  - exists last, first. simpl in Hl, Hf.
    injection Hl as <-. injection Hf as <-. repeat split; exact Heq.
Defined.

(** ** Names *)

Section NamesProperties.
Import Names.

Ltac ascii_cases c :=
  destruct c as [[|] [|] [|] [|] [|] [|] [|] [|]]; vm_compute;
  try reflexivity; try discriminate; auto.

Lemma lower_char_word c : Re.is_word (lower_char c) = Re.is_word c.
Proof. ascii_cases c. Qed.

Lemma lower_char_digit c : Re.is_digit (lower_char c) = Re.is_digit c.
Proof. ascii_cases c. Qed.

Lemma lower_char_idem c : lower_char (lower_char c) = lower_char c.
Proof. ascii_cases c. Qed.

Lemma word_first c :
  Re.is_word c = true -> Re.is_digit c = false ->
  Re.is_alpha c || Ascii.eqb c "_"%char = true.
Proof. ascii_cases c. Qed.

Lemma underscore_or_word c :
  Re.is_word (if Re.is_word c then c else "_"%char) = true.
Proof. destruct (Re.is_word c) eqn:H; [exact H | reflexivity]. Qed.

Lemma sub_nonword_word s : all_word (sub_nonword s).
Proof.
  induction s as [|c s IH]; intros x; simpl; [intros []|].
  intros [<-|Hx]; [apply underscore_or_word | apply IH, Hx].
Qed.

Lemma lower_word s : all_word s -> all_word (lower s).
Proof.
  induction s as [|c s IH]; intros Hs x; simpl; [intros []|].
  intros [<-|Hx].
  - rewrite lower_char_word. apply Hs. left. reflexivity.
  - apply IH; [|exact Hx]. intros y Hy. apply Hs. right. exact Hy.
Qed.

Lemma sub_nonword_id s : all_word s -> sub_nonword s = s.
Proof.
  induction s as [|c s IH]; intros Hs; simpl; [reflexivity|].
  rewrite (Hs c) by (left; reflexivity). f_equal. apply IH.
  intros y Hy. apply Hs. right. exact Hy.
Qed.

Lemma lower_idem s : lower (lower s) = lower s.
Proof.
  induction s as [|c s IH]; simpl; [reflexivity|].
  rewrite lower_char_idem, IH. reflexivity.
Qed.

Lemma span_all_word s : all_word s -> Re.span Re.is_word s = (s, EmptyString).
Proof.
  induction s as [|c s IH]; intros Hs; simpl; [reflexivity|].
  rewrite (Hs c) by (left; reflexivity). rewrite IH; [reflexivity|].
  intros y Hy. apply Hs. right. exact Hy.
Qed.

Lemma all_word_cons c s : all_word (String c s) <-> Re.is_word c = true /\ all_word s.
Proof.
  split.
  - intros H. split; [apply H; left; reflexivity|].
    intros y Hy. apply H. right. exact Hy.
  - intros [Hc Hs] y [<-|Hy]; [exact Hc | apply Hs, Hy].
Qed.

(** The name built from a text: word characters only, not starting with
    a digit. *)
Lemma python_var_shape s :
  s <> EmptyString ->
  exists c rest, _python_var s = String c rest
                 /\ all_word (String c rest) /\ Re.is_digit c = false.
Proof.
  destruct s as [|c s]; [congruence|]. intros _. unfold _python_var.
  destruct (Re.is_digit c) eqn:Hd.
  - eexists _, _. split; [reflexivity|]. split; [|reflexivity].
    apply (lower_word (String "_"%char (sub_nonword (String c s)))).
    apply all_word_cons. split; [reflexivity | apply sub_nonword_word].
  - eexists _, _. split; [reflexivity|]. split.
    + apply (lower_word (sub_nonword (String c s))), sub_nonword_word.
    + rewrite lower_char_digit. destruct (Re.is_word c); [exact Hd | reflexivity].
Qed.

(** X4: the name built from a non-empty description by [_python_var]
    passes the check of names [_is_valid_python_var]. *)
Theorem python_var_valid s :
  s <> EmptyString -> _is_valid_python_var (_python_var s) = true.
Proof.
  intros Hs. destruct (python_var_shape s Hs) as (c & rest & -> & Hw & Hd).
  apply all_word_cons in Hw as [Hc Hrest].
  unfold _is_valid_python_var. rewrite (word_first c Hc Hd).
  rewrite (span_all_word rest Hrest). reflexivity.
Qed.

Lemma python_var_valid_witness :
  _python_var "2024 Net Sales (k)" = "_2024_net_sales__k_"
  /\ _is_valid_python_var (_python_var "2024 Net Sales (k)") = true.
Proof.
  split; [reflexivity|]. apply python_var_valid. discriminate.
Defined.

(** X5: [_python_var] is idempotent: a name it built is left as it is. *)
Theorem python_var_idempotent s : _python_var (_python_var s) = _python_var s.
Proof.
  destruct (string_dec s EmptyString) as [->|Hs]; [reflexivity|].
  destruct (python_var_shape s Hs) as (c & rest & Heq & Hw & Hd).
  assert (Hlow : lower (_python_var s) = _python_var s).
  { unfold _python_var. apply lower_idem. }
  rewrite Heq in *. unfold _python_var at 1. rewrite Hd.
  rewrite (sub_nonword_id _ Hw). exact Hlow.
Qed.

Lemma span_word_newline w :
  all_word w -> Re.span Re.is_word (w +:+ NEWLINE) = (w, NEWLINE).
Proof.
  induction w as [|c w IH]; intros Hw; simpl; [reflexivity|].
  apply all_word_cons in Hw as [Hc Hw]. rewrite Hc, (IH Hw). reflexivity.
Qed.

Lemma span_split p s :
  forall a b, Re.span p s = (a, b) ->
  s = a +:+ b /\ (forall c, In c (list_ascii_of_string a) -> p c = true).
Proof.
  induction s as [|c s IH]; intros a b; simpl.
  - intros [= <- <-]. split; [reflexivity | intros c []].
  - destruct (p c) eqn:Hc.
    + destruct (Re.span p s) as [a' b'] eqn:Hs. intros [= <- <-].
      destruct (IH a' b' eq_refl) as [-> Ha]. split; [reflexivity|].
      intros x [<-|Hx]; [exact Hc | apply Ha, Hx].
    + intros [= <- <-]. split; [reflexivity | intros x []].
Qed.

Lemma string_app_empty_r (w : string) : w +:+ EmptyString = w.
Proof.
  induction w as [|a w IH]; [reflexivity|].
  change (String a (w +:+ EmptyString) = String a w). f_equal. exact IH.
Qed.

(** X6: the names [_is_valid_python_var] accepts are the texts made of
    letters, digits and underscores that do not start with a digit, and
    also such a text followed by one newline. *)
Theorem valid_python_var_spec name :
  _is_valid_python_var name = true
  <-> exists c w,
        (Re.is_alpha c || Ascii.eqb c "_"%char = true) /\ all_word w
        /\ (name = String c w \/ name = String c w +:+ NEWLINE).
Proof.
  split.
  - destruct name as [|c rest]; [discriminate|]. simpl.
    destruct (Re.span Re.is_word rest) as [w tail] eqn:Hspan.
    intros H. apply andb_true_iff in H as [Hc Htail].
    destruct (span_split _ _ _ _ Hspan) as [-> Hw].
    exists c, w. split; [exact Hc|]. split; [exact Hw|].
    apply orb_true_iff in Htail as [Ht|Ht]; apply String.eqb_eq in Ht; subst tail.
    + left. rewrite string_app_empty_r. reflexivity.
    + right. reflexivity.
  - intros (c & w & Hc & Hw & [->| ->]); simpl; rewrite Hc; simpl.
    + rewrite (span_all_word w Hw). reflexivity.
    + rewrite (span_word_newline w Hw). reflexivity.
Qed.

End NamesProperties.

(** ** Rendering *)

Section Rendering.
Import MisReportKpi.

Context (E : env).

Definition has_hyphen (s : string) : Prop :=
  In "-"%char (list_ascii_of_string s).

Lemma has_hyphen_app a b : has_hyphen (a +:+ b) <-> has_hyphen a \/ has_hyphen b.
Proof.
  unfold has_hyphen. induction a as [|c a IH]; simpl; [intuition|].
  change (c = "-"%char \/ In "-"%char (list_ascii_of_string (a +:+ b))
          <-> (c = "-"%char \/ In "-"%char (list_ascii_of_string a))
              \/ In "-"%char (list_ascii_of_string b)).
  rewrite IH. intuition.
Qed.

Lemma replace_hyphen_clean s : ~ has_hyphen (replace_hyphen NON_BREAKING_HYPHEN s).
Proof.
  induction s as [|c s IH]; simpl; [intros []|].
  destruct (Ascii.eqb_spec c "-"%char) as [->|Hne].
  - rewrite has_hyphen_app. intros [H|H]; [|exact (IH H)].
    vm_compute in H. intuition discriminate.
  - intros [H|H]; [congruence | exact (IH H)].
Qed.

Lemma render_num_clean lang_id v d dp prefix suffix plus s :
  _render_num E lang_id v d dp prefix suffix plus = Ok s -> ~ has_hyphen s.
Proof.
  unfold _render_num. intros H.
  apply result_bind_ok in H as (q & _ & H).
  apply result_bind_ok in H as (r & _ & H).
  apply result_bind_ok in H as (t & _ & H).
  injection H as <-. apply replace_hyphen_clean.
Qed.

Ltac walk H :=
  repeat match type of H with
         | (_ ≫= _) = Ok _ =>
             let x := fresh "x" in let Hx := fresh "Hx" in
             apply result_bind_ok in H as (x & Hx & H)
         | (if ?b then _ else _) = Ok _ => destruct b
         | (match ?x with _ => _ end) = Ok _ => destruct x
         end.

(** X7: a number is never rendered with the ASCII hyphen: in what
    [render] returns for a numeric or percentage KPI and in what
    [render_comparison] returns, each [-] of the prefix, of the formatted
    number and of the suffix has been replaced by the non-breaking
    hyphen. *)
Theorem rendered_without_hyphen self lang_id :
  (forall v s, k_type self <> KStr ->
               render E self lang_id v = Ok s -> ~ has_hyphen s)
  /\ (forall v b av ab s,
         render_comparison E self lang_id v b av ab = Ok s -> ~ has_hyphen s).
Proof.
  split.
  - intros v s Ht. unfold render.
    destruct (_ || _); [intros [= <-] []|].
    destruct (k_type self); [| |congruence]; apply render_num_clean.
  - intros v b av ab s H. unfold render_comparison in H.
    destruct (k_type self); [destruct (k_compare_method self)| |];
      walk H;
      first [ injection H as <-; intros []
            | exact (render_num_clean _ _ _ _ _ _ _ _ H) ].
Qed.

End Rendering.
